(** * RAMCloud: server identifiers, server configuration, the server tracker
      and the failure detector

    A shallow embedding of [ServerId.h], [ServerConfig.h], the parts of
    [ServerTracker] exercised by [ServerTrackerTest.cc], and
    [FailureDetector.cc], followed by the properties proved about them.

    Conventions.  A C++ [uintN_t] is a [Z] with the wrap-around written
    out ([uint32], [uint64]).  Assertions are live: an accessor whose
    [assert] fails returns [None], and a method that reaches one ends
    [Aborted].  Calls that leave the failure detector (RPCs, the clock,
    the random number generator, the server list and the tracker) read
    their outcome from an explicit [World]; RPCs and log lines are
    recorded in a trace of [Event]s. *)

From stdpp Require Import base numbers list strings.
From Stdlib Require Import ZArith Lia.
From Stdlib Require DecimalString HexadecimalString.

Local Open Scope Z_scope.

(** ** Machine integers *)

Definition uint32 (z : Z) : Z := z mod 2 ^ 32.
Definition uint64 (z : Z) : Z := z mod 2 ^ 64.

(** ** ServerId.h *)

Module ServerId.

(** [class ServerId { uint64_t serverId; }] *)
Record t : Type := Build { serverId : Z }.

(** [enum { INVALID_SERVERID_GENERATION_NUMBER = (uint32_t)-1 }] *)
Definition INVALID_SERVERID_GENERATION_NUMBER : Z := uint32 (-1).

(** The field holds a 64-bit value. *)
Definition wf (x : t) : Prop := 0 <= serverId x < 2 ^ 64.

(** [ServerId()]:
    [static_cast<uint64_t>(INVALID_SERVERID_GENERATION_NUMBER) << 32]. *)
Definition default : t :=
    Build (uint64 (Z.shiftl (uint64 INVALID_SERVERID_GENERATION_NUMBER) 32)).

(** [explicit ServerId(uint64_t id)] *)
Definition fromId (id : Z) : t := Build (uint64 id).

(** [ServerId(uint32_t indexNumber, uint32_t generationNumber)]:
      [static_cast<uint64_t>(generationNumber) << 32 | indexNumber]. *)
Definition make (indexNumber generationNumber : Z) : t :=
    Build (Z.lor (uint64 (Z.shiftl (uint32 generationNumber) 32))
                 (uint32 indexNumber)).

(** [_generationNumber()]: [downCast<uint32_t>(serverId >> 32)]; the
      shifted value of a 64-bit field always fits 32 bits. *)
Definition _generationNumber (x : t) : Z := Z.shiftr (serverId x) 32.

(** [isValid()] *)
Definition isValid (x : t) : bool :=
    negb (_generationNumber x =? INVALID_SERVERID_GENERATION_NUMBER).

(** [getId()]: [assert(isValid()); return serverId;] *)
Definition getId (x : t) : option Z :=
    if isValid x then Some (serverId x) else None.

(** [operator*()] *)
Definition deref (x : t) : option Z := getId x.

(** [indexNumber()]: [assert(isValid()); return serverId & 0xffffffffUL;]
      truncated to the [uint32_t] return type. *)
Definition indexNumber (x : t) : option Z :=
    if isValid x then Some (uint32 (Z.land (serverId x) 0xffffffff)) else None.

(** [generationNumber()]: [assert(isValid()); return _generationNumber();] *)
Definition generationNumber (x : t) : option Z :=
    if isValid x then Some (_generationNumber x) else None.

(** [operator==]: invalid is invalid, regardless of the index number. *)
Definition eqb (x other : t) : bool :=
    if negb (isValid x) && negb (isValid other) then true
    else serverId x =? serverId other.

(** [operator!=] *)
Definition neqb (x other : t) : bool := negb (eqb x other).

(** [operator=] *)
Definition assign (_ other : t) : t := Build (serverId other).

End ServerId.

(** ** Service masks *)

Module ServiceMask.

(** Modelled from the spec: [ServiceMask.h] and the [ServiceType]
    enumeration are not part of the sources.  The directory tags every
    entry with a bitmask of services offered (master, backup,
    membership, ping); the sources also name the coordinator service. *)
Inductive ServiceType : Type :=
  | MASTER_SERVICE
  | BACKUP_SERVICE
  | COORDINATOR_SERVICE
  | PING_SERVICE
  | MEMBERSHIP_SERVICE.

(** Modelled from the spec: the bit of a service in the mask, missing
    with [ServiceMask.h].  [ServerTrackerTest.cc] notes that a master
    has the low order bit set. *)
Definition bit (s : ServiceType) : Z :=
    match s with
    | MASTER_SERVICE => 0
    | BACKUP_SERVICE => 1
    | COORDINATOR_SERVICE => 2
    | PING_SERVICE => 3
    | MEMBERSHIP_SERVICE => 4
    end.

(** The serialized form, a [uint32_t]. *)
Definition t : Type := Z.

Definition empty : t := 0.

Definition single (s : ServiceType) : t := Z.shiftl 1 (bit s).

(** [ServiceMask{s1, s2, ...}] *)
Definition ofList (l : list ServiceType) : t :=
    fold_right (fun s m => Z.lor (single s) m) empty l.

(** Modelled from the spec: [services.has(mask)], missing with
    [ServiceMask.h]; the entry's mask includes the requested one. *)
Definition has (services mask : t) : bool :=
    Z.land services mask =? mask.

Definition serialize (m : t) : Z := m.

End ServiceMask.

(** ** ServerConfig.h *)

Module ServerConfig.

Import ServiceMask.

Section Config.

(** [Segment::SEGMENT_SIZE], declared in [Segment.h]. *)
Variable SEGMENT_SIZE : Z.

(** [struct Master] *)
Record Master : Type := BuildMaster {
      logBytes : Z;
      hashTableBytes : Z;
      disableLogCleaner : bool;
      numReplicas : Z
    }.

(** [Master(Testing)] *)
Definition Master_testing : Master :=
      {| logBytes := uint64 (32 * 1024 * 1024);
         hashTableBytes := uint64 (1 * 1024 * 1024);
         disableLogCleaner := true;
         numReplicas := uint32 0 |}.

(** [Master()]: every member is value-initialized. *)
Definition Master_execution : Master :=
      {| logBytes := 0;
         hashTableBytes := 0;
         disableLogCleaner := false;
         numReplicas := 0 |}.

(** [struct Backup] *)
Record Backup : Type := BuildBackup {
      inMemory : bool;
      numSegmentFrames : Z;
      segmentSize : Z;
      file : string;
      strategy : Z;
      mockSpeed : Z
    }.

(** [Backup(Testing)] *)
Definition Backup_testing : Backup :=
      {| inMemory := true;
         numSegmentFrames := uint32 4;
         segmentSize := uint32 (64 * 1024);
         file := "";
         strategy := 1;
         mockSpeed := uint32 100 |}.

(** [Backup()] *)
Definition Backup_execution : Backup :=
      {| inMemory := false;
         numSegmentFrames := uint32 512;
         segmentSize := uint32 SEGMENT_SIZE;
         file := "/var/tmp/backup.log";
         strategy := 1;
         mockSpeed := uint32 0 |}.

(** [struct ServerConfig] *)
Record t : Type := Build {
      coordinatorLocator : string;
      localLocator : string;
      services : ServiceMask.t;
      detectFailures : bool;
      pinMemory : bool;
      master : Master;
      backup : Backup
    }.

(** [ServerConfig(Testing)], returned by [forTesting()]. *)
Definition forTesting : t :=
      {| coordinatorLocator := "";
         localLocator := "";
         services :=
           ofList [MASTER_SERVICE; BACKUP_SERVICE; MEMBERSHIP_SERVICE];
         detectFailures := false;
         pinMemory := false;
         master := Master_testing;
         backup := Backup_testing |}.

(** [ServerConfig()], returned by [forExecution()]. *)
Definition forExecution : t :=
      {| coordinatorLocator := "";
         localLocator := "";
         services :=
           ofList [MASTER_SERVICE; BACKUP_SERVICE;
                   PING_SERVICE; MEMBERSHIP_SERVICE];
         detectFailures := true;
         pinMemory := true;
         master := Master_execution;
         backup := Backup_execution |}.

End Config.

End ServerConfig.


(** ** Logging *)

Inductive LogLevel : Type := ERROR | WARNING | NOTICE | DEBUG.

(** ** The server tracker

    [ServerTracker.h] is not part of the sources; only its unit tests
    ([ServerTrackerTest.cc]) and its callers are.  The operations below
    follow section 4.1 of the specification (enqueue, get_change,
    annotation, random_with_service, size) and agree with every
    observation the tests make: the names of the members ([serverList],
    [changes], [lastRemovedIndex], [pointer]), the all-ones
    [lastRemovedIndex] when nothing is pending removal, and the order in
    which slots are filled and blanked. *)

Module ServerDetails.

(** Modelled from the spec: [ServerDetails], declared in the missing
    [ServerList.h]; one directory entry with its identity, locator and
    services offered. *)
Record t : Type := Build {
  serverId : ServerId.t;
  serviceLocator : string;
  services : ServiceMask.t
}.

(** Modelled from the spec: [ServerDetails()], missing with
    [ServerList.h]; [ServerTrackerTest.cc] finds a blanked slot with an
    invalid id, an empty locator and no services. *)
Definition default : t :=
  {| serverId := ServerId.default;
     serviceLocator := EmptyString;
     services := ServiceMask.empty |}.

End ServerDetails.

(** Modelled from the spec: the two events of the change stream,
    declared in the missing [ServerList.h]. *)
Inductive ServerChangeEvent : Type := SERVER_ADDED | SERVER_REMOVED.

Module ServerTracker.

(** Modelled from the spec: [ServerTracker::ServerChange], missing with
    [ServerTracker.h]; a queued directory mutation. *)
Record ServerChange : Type := BuildChange {
  change_server : ServerDetails.t;
  change_event : ServerChangeEvent
}.

(** Modelled from the spec: a slot of the tracker's dense vector,
    missing with [ServerTracker.h]; the entry and the subscriber's
    annotation, a pointer ([0] is [NULL]). *)
Record ServerDetailsWithPointer : Type := BuildSlot {
  server : ServerDetails.t;
  pointer : Z
}.

Definition NULL : Z := 0.

Definition blank : ServerDetailsWithPointer :=
  {| server := ServerDetails.default; pointer := NULL |}.

(** Modelled from the spec: what the tracker writes to the log, the
    warning about an annotation left non-null; [ServerTrackerTest.cc]
    shows it carries the index and the id of the slot. *)
Inductive LogEntry : Type :=
| PointerNotNulled (level : LogLevel) (index : Z) (id : Z).

(** Modelled from the spec: the members of [ServerTracker], missing
    with [ServerTracker.h], under the names [ServerTrackerTest.cc]
    reads them by. *)
Record t : Type := Build {
  serverList : list ServerDetailsWithPointer;
  changes : list ServerChange;
  lastRemovedIndex : Z;
  numberOfServers : Z;
  eventCallback : bool;
  callbacksFired : nat;
  log : list LogEntry
}.

(** [static_cast<uint32_t>(-1)]: no removal is pending. *)
Definition NO_INDEX : Z := uint32 (-1).

(** Modelled from the spec: the constructors of [ServerTracker], as
    test [constructors] observes them; a tracker over an empty
    directory, with or without a callback. *)
Definition create (withCallback : bool) : t :=
  {| serverList := [];
     changes := [];
     lastRemovedIndex := NO_INDEX;
     numberOfServers := 0;
     eventCallback := withCallback;
     callbacksFired := 0%nat;
     log := [] |}.

(** Modelled from the spec: the slot of an id in the dense vector, its
    32 index bits. *)
Definition slotIndex (id : ServerId.t) : Z :=
  uint32 (Z.land (ServerId.serverId id) 0xffffffff).

(** Modelled from the spec: [ServerTracker::enqueueChange], missing
    with [ServerTracker.h].  [enqueue(entry, event)] appends to the
    FIFO; an [ADDED] reserves the slot, growing the vector with blank
    slots if needed; the callback, if any, is fired. *)
Definition enqueueChange (tr : t) (s : ServerDetails.t)
    (ev : ServerChangeEvent) : t :=
  let index := Z.to_nat (slotIndex (ServerDetails.serverId s)) in
  let slots :=
    match ev with
    | SERVER_ADDED =>
        if (length (serverList tr) <=? index)%nat
        then resize (S index) blank (serverList tr)
        else serverList tr
    | SERVER_REMOVED => serverList tr
    end in
  {| serverList := slots;
     changes := changes tr ++ [BuildChange s ev];
     lastRemovedIndex := lastRemovedIndex tr;
     numberOfServers := numberOfServers tr;
     eventCallback := eventCallback tr;
     callbacksFired :=
       if eventCallback tr then S (callbacksFired tr) else callbacksFired tr;
     log := log tr |}.

(** Modelled from the spec: [ServerTracker::areChanges], missing with
    [ServerTracker.h]; some change is pending. *)
Definition areChanges (tr : t) : bool :=
  match changes tr with [] => false | _ :: _ => true end.

(** Modelled from the spec: the first half of
    [ServerTracker::getChange], missing with [ServerTracker.h].  A
    [REMOVED] was handed out by the previous call, so the slot's
    identity and annotation are cleared now; an annotation the
    subscriber left non-null is reported with a warning. *)
Definition clearLastRemoved (tr : t) : t :=
  if lastRemovedIndex tr =? NO_INDEX then tr
  else
    let i := Z.to_nat (lastRemovedIndex tr) in
    let report :=
      match serverList tr !! i with
      | Some slot =>
          if pointer slot =? NULL then []
          else [PointerNotNulled WARNING (lastRemovedIndex tr)
                  (ServerId.serverId (ServerDetails.serverId (server slot)))]
      | None => []
      end in
    {| serverList := <[i := blank]> (serverList tr);
       changes := changes tr;
       lastRemovedIndex := NO_INDEX;
       numberOfServers := numberOfServers tr;
       eventCallback := eventCallback tr;
       callbacksFired := callbacksFired tr;
       log := log tr ++ report |}.

(** Modelled from the spec: the second half of
    [ServerTracker::getChange], missing with [ServerTracker.h]; it
    applies one popped change.  An [ADDED] installs the identity in its
    slot and counts the server; a [REMOVED] keeps the slot, remembers
    its index and uncounts. *)
Definition applyChange (tr : t) (c : ServerChange)
    (rest : list ServerChange) : t :=
  let index := slotIndex (ServerDetails.serverId (change_server c)) in
  match change_event c with
  | SERVER_ADDED =>
      {| serverList :=
           alter (fun slot => BuildSlot (change_server c) (pointer slot))
                 (Z.to_nat index) (serverList tr);
         changes := rest;
         lastRemovedIndex := lastRemovedIndex tr;
         numberOfServers := uint32 (numberOfServers tr + 1);
         eventCallback := eventCallback tr;
         callbacksFired := callbacksFired tr;
         log := log tr |}
  | SERVER_REMOVED =>
      {| serverList := serverList tr;
         changes := rest;
         lastRemovedIndex := index;
         numberOfServers := uint32 (numberOfServers tr - 1);
         eventCallback := eventCallback tr;
         callbacksFired := callbacksFired tr;
         log := log tr |}
  end.

(** Modelled from the spec: [ServerTracker::getChange], missing with
    [ServerTracker.h].  [get_change(out_entry, out_event) -> bool] pops
    the oldest pending event; [None] is [false]. *)
Definition getChange (tr : t)
    : t * option (ServerDetails.t * ServerChangeEvent) :=
  let tr1 := clearLastRemoved tr in
  match changes tr1 with
  | [] => (tr1, None)
  | c :: rest =>
      (applyChange tr1 c rest, Some (change_server c, change_event c))
  end.

(** Modelled from the spec: the test behind [annotation(server_id)],
    missing with [ServerTracker.h]; the id occupies its slot when the
    slot is in range and holds the same generation. *)
Definition occupies (tr : t) (id : ServerId.t) : bool :=
  ServerId.isValid id &&
  match serverList tr !! Z.to_nat (slotIndex id) with
  | Some slot => ServerId.eqb (ServerDetails.serverId (server slot)) id
  | None => false
  end.

(** Modelled from the spec: [ServerTracker::operator[]] read, missing
    with [ServerTracker.h]; [None] is the [UnknownServer] failure. *)
Definition getPointer (tr : t) (id : ServerId.t) : option Z :=
  if occupies tr id
  then pointer <$> (serverList tr !! Z.to_nat (slotIndex id))
  else None.

(** Modelled from the spec: [ServerTracker::operator[]] written,
    missing with [ServerTracker.h]; [annotation(server_id) = p]. *)
Definition setPointer (tr : t) (id : ServerId.t) (p : Z) : option t :=
  if occupies tr id
  then Some
    {| serverList :=
         alter (fun slot => BuildSlot (server slot) p)
               (Z.to_nat (slotIndex id)) (serverList tr);
       changes := changes tr;
       lastRemovedIndex := lastRemovedIndex tr;
       numberOfServers := numberOfServers tr;
       eventCallback := eventCallback tr;
       callbacksFired := callbacksFired tr;
       log := log tr |}
  else None.

(** What the subscriber may do to the tracker between two calls of
    [get_change]: any number of annotation writes. *)
Inductive annotated (tr : t) : t -> Prop :=
| annotated_refl : annotated tr tr
| annotated_step tr1 id p tr2 :
    annotated tr tr1 -> setPointer tr1 id p = Some tr2 -> annotated tr tr2.

(** Modelled from the spec: [ServerTracker::size], missing with
    [ServerTracker.h]; the servers added and not yet removed in the view
    the subscriber has consumed. *)
Definition size (tr : t) : Z := numberOfServers tr.

(** Modelled from the spec: which entries are currently present,
    missing with [ServerTracker.h]; a slot is present when it holds a
    valid identity and is not the one whose removal was just handed
    out. *)
Definition present (tr : t) (i : nat) (slot : ServerDetailsWithPointer)
    : bool :=
  ServerId.isValid (ServerDetails.serverId (server slot)) &&
  negb (Z.of_nat i =? lastRemovedIndex tr).

(** Modelled from the spec: the entries [random_with_service] selects
    among, the present ones whose service mask includes [mask]. *)
Definition matching (tr : t) (mask : ServiceMask.t)
    : list ServerDetailsWithPointer :=
  snd <$> filter
    (fun p => present tr (fst p) (snd p) &&
              ServiceMask.has (ServerDetails.services (server (snd p))) mask
              = true)
    (imap pair (serverList tr)).

(** Modelled from the spec:
    [ServerTracker::getRandomServerIdWithService], missing with
    [ServerTracker.h].  [random_with_service(mask)] selects among the
    matching entries by the draw [random] of the random number
    generator, and returns the invalid id when none matches. *)
Definition getRandomServerIdWithService (tr : t) (mask : ServiceMask.t)
    (random : Z) : ServerId.t :=
  let candidates := matching tr mask in
  match candidates with
  | [] => ServerId.default
  | _ :: _ =>
      let k := Z.to_nat (uint64 random mod Z.of_nat (length candidates)) in
      match candidates !! k with
      | Some slot => ServerDetails.serverId (server slot)
      | None => ServerId.default
      end
  end.

End ServerTracker.

(** ** FailureDetector.cc *)

Module FailureDetector.

Import ServiceMask.

(** The exception classes the detector names in its handlers, taken as
    unrelated classes; anything else is [OtherException]. *)
Inductive Exception : Type :=
| ServerListException
| TimeoutException
| TransportException
| OtherException.

(** How a call ends: it returns, it throws, or an [assert] stops the
    process. *)
Inductive Outcome (A : Type) : Type :=
| Returned (a : A)
| Thrown (e : Exception)
| Aborted.

Arguments Returned {A} a.
Arguments Thrown {A} e.
Arguments Aborted {A}.

(** What a log line says; the arguments of the format string are kept. *)
Inductive Message : Type :=
| PingSucceeded (locator : string)
| StaleId (locator : string) (id : Z)
| PingTimeout (id : Z) (locator : string)
| HintServerDownFailed
| StaleServerListDetected (have saw timeoutUs : Z)
| RequestToCoordinatorFailed
| NothingToDo
| VersionAdvanced.

(** What a run of the detector does to the outside, in order. *)
Inductive Event : Type :=
| Ping (locator : string) (nonce timeoutNs : Z)
| HintServerDown (serverId : ServerId.t)
| RequestServerList (serverId : ServerId.t)
| Log (level : LogLevel) (m : Message)
| TestLog (m : Message).

(** The outcomes of the calls that leave the detector, for one run of
    one of its methods (each is made at most once per run). *)
Record World : Type := BuildWorld {
  (** [serverTracker.getRandomServerIdWithService(service)] *)
  serverTracker_getRandomServerIdWithService : ServiceType -> ServerId.t;
  (** [generateRandom()] *)
  generateRandom : Z;
  (** [serverList.getLocator(id)]; [None] is [ServerListException]. *)
  serverList_getLocator : ServerId.t -> option string;
  (** [serverList.getVersion()] *)
  serverList_getVersion : Z;
  (** [pingClient.ping(locator, nonce, timeoutNs, &serverListVersion)] *)
  pingClient_ping : string -> Z -> Z -> Outcome Z;
  (** [coordinatorClient.hintServerDown(id)] *)
  coordinatorClient_hintServerDown : ServerId.t -> Outcome unit;
  (** [coordinatorClient.requestServerList(id)] *)
  coordinatorClient_requestServerList : ServerId.t -> Outcome unit;
  (** [Cycles::rdtsc()] *)
  Cycles_rdtsc : Z
}.

(** The members of [class FailureDetector] its methods read and write. *)
Record t : Type := Build {
  ourServerId : ServerId.t;
  staleServerListSuspected : bool;
  staleServerListVersion : Z;
  staleServerListTimestamp : Z
}.

(** The constructor's initial values. *)
Definition create (ourServerId : ServerId.t) : t :=
  {| ourServerId := ourServerId;
     staleServerListSuspected := false;
     staleServerListVersion := 0;
     staleServerListTimestamp := 0 |}.

(** *** A monad for the methods: the world is read, the detector is
    threaded, events are emitted, exceptions propagate. *)

Definition M (A : Type) : Type := World -> t -> Outcome A * t * list Event.

Definition ret {A} (a : A) : M A := fun _ d => (Returned a, d, []).

Definition bind {A B} (m : M A) (k : A -> M B) : M B :=
  fun w d =>
    match m w d with
    | (Returned a, d1, es1) =>
        let '(o, d2, es2) := k a w d1 in (o, d2, es1 ++ es2)
    | (Thrown e, d1, es1) => (Thrown e, d1, es1)
    | (Aborted, d1, es1) => (Aborted, d1, es1)
    end.

Declare Scope fd_scope.
Delimit Scope fd_scope with fd.

Notation "x <- m ;; k" := (bind m (fun x => k))
  (at level 100, m at next level, right associativity) : fd_scope.
Notation "m ;; k" := (bind m (fun _ => k))
  (at level 100, right associativity) : fd_scope.

Local Open Scope fd_scope.

Definition get : M t := fun _ d => (Returned d, d, []).
Definition put (d : t) : M unit := fun _ _ => (Returned tt, d, []).
Definition ask : M World := fun w d => (Returned w, d, []).
Definition emit (e : Event) : M unit := fun _ d => (Returned tt, d, [e]).

(** An external call: the event is emitted, then the call ends the way
    the world says. *)
Definition call {A} (e : Event) (o : Outcome A) : M A :=
  fun _ d => (o, d, [e]).

(** [throw e] *)
Definition throw {A} (e : Exception) : M A := fun _ d => (Thrown e, d, []).

(** [assert(...)] on a value that an accessor may refuse. *)
Definition assertSome {A} (o : option A) : M A :=
  fun _ d => match o with
             | Some a => (Returned a, d, [])
             | None => (Aborted, d, [])
             end.

(** [try { body } catch (...) { handler }]: [handler e] is [None] when
    no [catch] clause matches [e], which then propagates. *)
Definition try_catch {A} (body : M A) (handler : Exception -> option (M A))
    : M A :=
  fun w d =>
    match body w d with
    | (Thrown e, d1, es1) =>
        match handler e with
        | Some h => let '(o, d2, es2) := h w d1 in (o, d2, es1 ++ es2)
        | None => (Thrown e, d1, es1)
        end
    | r => r
    end.

Definition setStaleServerListSuspected (b : bool) : M unit :=
  d <- get ;;
  put {| ourServerId := ourServerId d;
         staleServerListSuspected := b;
         staleServerListVersion := staleServerListVersion d;
         staleServerListTimestamp := staleServerListTimestamp d |}.

Section Methods.

(** [Cycles::toNanoseconds], declared in [Cycles.h]. *)
Variable toNanoseconds : Z -> Z.

(** [TIMEOUT_USECS] and [STALE_SERVER_LIST_USECS], declared in
    [FailureDetector.h]. *)
Variable TIMEOUT_USECS : Z.
Variable STALE_SERVER_LIST_USECS : Z.

(** [FailureDetector::alertCoordinator] *)
Definition alertCoordinator (serverId : ServerId.t) (locator : string)
    : M unit :=
  id <- assertSome (ServerId.deref serverId) ;;
  emit (Log WARNING (PingTimeout id locator)) ;;
  w <- ask ;;
  try_catch
    (call (HintServerDown serverId)
          (coordinatorClient_hintServerDown w serverId))
    (fun e =>
       match e with
       | TransportException => Some (emit (Log WARNING HintServerDownFailed))
       | _ => None
       end).

(** [FailureDetector::checkServerListVersion] *)
Definition checkServerListVersion (observedVersion : Z) : M unit :=
  d <- get ;;
  if staleServerListSuspected d then ret tt
  else
    w <- ask ;;
    let currentVersion := serverList_getVersion w in
    if observedVersion <=? currentVersion then ret tt
    else
      put {| ourServerId := ourServerId d;
             staleServerListSuspected := true;
             staleServerListVersion := currentVersion;
             staleServerListTimestamp := Cycles_rdtsc w |}.

(** The three [catch] clauses of [pingRandomServer]; [locator] is the
    local variable as it stands when the exception arrives. *)
Definition pingCatch (pingee : ServerId.t) (locator : string)
    (e : Exception) : option (M unit) :=
  match e with
  | ServerListException =>
      Some (id <- assertSome (ServerId.deref pingee) ;;
            emit (Log NOTICE (StaleId locator id)))
  | TimeoutException => Some (alertCoordinator pingee locator)
  | TransportException => Some (alertCoordinator pingee locator)
  | OtherException => None
  end.

(** [FailureDetector::pingRandomServer] *)
Definition pingRandomServer : M unit :=
  w <- ask ;;
  d <- get ;;
  let pingee := serverTracker_getRandomServerIdWithService w PING_SERVICE in
  if negb (ServerId.isValid pingee) || ServerId.eqb pingee (ourServerId d)
  then ret tt
  else
    let nonce := generateRandom w in
    match serverList_getLocator w pingee with
    | None =>
        (* getLocator threw before [locator] was assigned *)
        try_catch (throw ServerListException) (pingCatch pingee EmptyString)
    | Some locator =>
        try_catch
          (serverListVersion <-
             call (Ping locator nonce (TIMEOUT_USECS * 1000))
                  (pingClient_ping w locator nonce (TIMEOUT_USECS * 1000)) ;;
           emit (TestLog (PingSucceeded locator)) ;;
           checkServerListVersion serverListVersion)
          (pingCatch pingee locator)
    end.

(** [FailureDetector::checkForStaleServerList] *)
Definition checkForStaleServerList : M unit :=
  d <- get ;;
  if negb (staleServerListSuspected d) then emit (TestLog NothingToDo)
  else
    w <- ask ;;
    let currentVersion := serverList_getVersion w in
    if currentVersion >? staleServerListVersion d then
      setStaleServerListSuspected false ;;
      emit (TestLog VersionAdvanced)
    else
      let deltaTicks := uint64 (Cycles_rdtsc w - staleServerListTimestamp d) in
      if toNanoseconds deltaTicks >=? STALE_SERVER_LIST_USECS * 1000 then
        emit (Log WARNING
                (StaleServerListDetected currentVersion
                   (staleServerListVersion d)
                   (toNanoseconds deltaTicks / 1000))) ;;
        try_catch
          (call (RequestServerList (ourServerId d))
                (coordinatorClient_requestServerList w (ourServerId d)) ;;
           setStaleServerListSuspected false)
          (fun e =>
             match e with
             | TransportException =>
                 Some (emit (Log WARNING RequestToCoordinatorFailed))
             | _ => None
             end)
      else ret tt.

(** The main loop calls [checkForStaleServerList] once per round; this
    runs it once per world of [ws], stopping if a round does not
    return. *)
Fixpoint staleChecks (ws : list World) (d : t)
    : Outcome unit * t * list Event :=
  match ws with
  | [] => (Returned tt, d, [])
  | w :: ws' =>
      match checkForStaleServerList w d with
      | (Returned _, d1, es1) =>
          let '(o, d2, es2) := staleChecks ws' d1 in (o, d2, es1 ++ es2)
      | r => r
      end
  end.

End Methods.

(** The three components of a run. *)
Definition outcomeOf {A} (r : Outcome A * t * list Event) : Outcome A :=
  fst (fst r).
Definition detectorOf {A} (r : Outcome A * t * list Event) : t :=
  snd (fst r).
Definition eventsOf {A} (r : Outcome A * t * list Event) : list Event :=
  snd r.

(** The coordinator requests in a trace. *)
Definition requestsSent (es : list Event) : list ServerId.t :=
  omap (fun e => match e with RequestServerList id => Some id | _ => None end)
       es.

(** The down-hints in a trace. *)
Definition hintsSent (es : list Event) : list ServerId.t :=
  omap (fun e => match e with HintServerDown id => Some id | _ => None end)
       es.

(** The pings in a trace. *)
Definition pingsSent (es : list Event) : list string :=
  omap (fun e => match e with Ping l _ _ => Some l | _ => None end) es.

End FailureDetector.

(** ** ServerConfig.h: sizing the log and the hash table *)

Module ServerConfigSizing.

Import ServerConfig.

(** The exceptions [setLogAndHashTableSize] throws, in the order of
    their [throw] statements. *)
Inductive SizingError : Type :=
| InvalidMasterTotalMemory
| CannotDetermineTotalMemory
| InvalidHashTableMemory
| HashTableExceedsTotal
| InsufficientLogMemory
| InsufficientHashTableMemory.

(** The two notices logged on success, with their arguments. *)
Inductive SizingLog : Type :=
| MasterToAllocate (masterBytes hashTableBytes : Z)
| MasterWillHave (numSegments numHashTableLines : Z).

(** [s.find("%")] and, when found, [s.substr(0, s.find("%"))]. *)
Definition percentPrefix (s : string) : option string :=
  match String.index 0 "%" s with
  | Some n => Some (String.substring 0 n s)
  | None => None
  end.

Section Sizing.

(** [Segment::SEGMENT_SIZE], declared in [Segment.h]. *)
Variable SEGMENT_SIZE : Z.

(** [HashTable<LogEntryHandle>::bytesPerCacheLine()], declared in
    [HashTable.h]. *)
Variable bytesPerCacheLine : Z.

(** [strtoull(str.c_str(), NULL, 10)] of the C library. *)
Variable strtoull : string -> Z.

(** [getTotalSystemMemory()], declared in [Common.h]. *)
Variable getTotalSystemMemory : Z.

(** [ServerConfig::setLogAndHashTableSize]: the error thrown, or the
    updated configuration with the notices logged. *)
Definition setLogAndHashTableSize (config : ServerConfig.t)
    (masterTotalMemory hashTableMemory : string)
    : SizingError + (ServerConfig.t * list SizingLog) :=
  let master_r :=
    match percentPrefix masterTotalMemory with
    | Some str =>
        let pct := uint64 (strtoull str) in
        if (pct <=? 0) || (pct >? 90) then inl InvalidMasterTotalMemory
        else
          let masterBytes := uint64 getTotalSystemMemory in
          if masterBytes =? 0 then inl CannotDetermineTotalMemory
          else inr (uint64 (masterBytes * pct) / 100)
    | None =>
        let masterBytes := uint64 (strtoull masterTotalMemory) in
        inr (uint64 (masterBytes * (1024 * 1024)))
    end in
  match master_r with
  | inl e => inl e
  | inr masterBytes =>
      let hash_r :=
        match percentPrefix hashTableMemory with
        | Some str =>
            let pct := uint64 (strtoull str) in
            if (pct <=? 0) || (pct >? 50) then inl InvalidHashTableMemory
            else inr (uint64 (masterBytes * pct) / 100)
        | None =>
            let hashTableBytes := uint64 (strtoull hashTableMemory) in
            inr (uint64 (hashTableBytes * (1024 * 1024)))
        end in
      match hash_r with
      | inl e => inl e
      | inr hashTableBytes =>
          if hashTableBytes >? masterBytes then inl HashTableExceedsTotal
          else
            let logBytes := uint64 (masterBytes - hashTableBytes) in
            let numSegments := logBytes / SEGMENT_SIZE in
            if numSegments <? 1 then inl InsufficientLogMemory
            else
              let numHashTableLines := hashTableBytes / bytesPerCacheLine in
              if numHashTableLines <? 1 then inl InsufficientHashTableMemory
              else
                inr ({| coordinatorLocator := coordinatorLocator config;
                        localLocator := localLocator config;
                        services := services config;
                        detectFailures := detectFailures config;
                        pinMemory := pinMemory config;
                        master :=
                          {| logBytes := logBytes;
                             hashTableBytes := hashTableBytes;
                             disableLogCleaner :=
                               disableLogCleaner (master config);
                             numReplicas := numReplicas (master config) |};
                        backup := backup config |},
                     [MasterToAllocate masterBytes hashTableBytes;
                      MasterWillHave numSegments numHashTableLines])
      end
  end.

End Sizing.

End ServerConfigSizing.

(** ** FailureDetector.cc: the detector thread *)

Module FailureDetectorThread.

Import FailureDetector.

(** What one pass of the loop of [detectorThreadEntry] meets: the exit
    flag it reads after the load fence, and the worlds in which
    [checkForStaleServerList] and then [pingRandomServer] run.  The
    tracker the loop drains in between belongs to the world. *)
Record Round : Type := BuildRound {
  threadShouldExit : bool;
  staleWorld : World;
  pingWorld : World
}.

(** How the thread stands after the rounds it was given: it left the
    loop, an exception escaped it, an assertion stopped the process, or
    it is still looping. *)
Inductive ThreadEnd : Type :=
| Exited
| Threw (e : Exception)
| Stopped
| Running.

Section Thread.

Variable toNanoseconds : Z -> Z.
Variable TIMEOUT_USECS : Z.
Variable STALE_SERVER_LIST_USECS : Z.

(** The [while (1)] loop of [FailureDetector::detectorThreadEntry], one
    [Round] per pass: leave if asked to, drain the tracker, check for a
    stale server list, ping a random server, sleep. *)
Fixpoint detectorLoop (rounds : list Round) (d : FailureDetector.t)
    : ThreadEnd * FailureDetector.t * list Event :=
  match rounds with
  | [] => (Running, d, [])
  | r :: rest =>
      if threadShouldExit r then (Exited, d, [])
      else
        match checkForStaleServerList toNanoseconds STALE_SERVER_LIST_USECS
                (staleWorld r) d with
        | (Returned _, d1, es1) =>
            match pingRandomServer TIMEOUT_USECS (pingWorld r) d1 with
            | (Returned _, d2, es2) =>
                let '(e, d3, es3) := detectorLoop rest d2 in
                (e, d3, es1 ++ es2 ++ es3)
            | (Thrown e, d2, es2) => (Threw e, d2, es1 ++ es2)
            | (Aborted, d2, es2) => (Stopped, d2, es1 ++ es2)
            end
        | (Thrown e, d1, es1) => (Threw e, d1, es1)
        | (Aborted, d1, es1) => (Stopped, d1, es1)
        end
  end.

End Thread.

End FailureDetectorThread.

(** ** Server.cc *)

Module Server.

Import ServiceMask.

(** Where a service is registered: with the [BindTransport] handed to
    [startForTesting], or with the context's [ServiceManager]. *)
Inductive Registry : Type := BindTransportRegistry | ServiceManagerRegistry.

(** What starting a server does, in order. *)
Inductive Event : Type :=
| DieCoordinatorService
| ConstructCoordinatorClient (coordinatorLocator : string)
| LogMasterBackups (numReplicas : Z)
| ConstructMaster
| ConstructBackup
| BenchmarkBackup
| ConstructMembership
| ConstructPing
| AddService (registry : Registry) (service : ServiceType)
| PinAllMemory
| SetDispatchTime (now : Z)
| EnlistServer (services : ServiceMask.t) (localLocator : string)
    (readSpeed writeSpeed : Z)
| InitMaster (serverId : ServerId.t)
| InitBackup (serverId : ServerId.t)
| StartFailureDetector (coordinatorLocator : string) (ourServerId : ServerId.t).

(** The outcomes of the calls that leave [Server.cc]. *)
Record World : Type := BuildWorld {
  (** [backup->benchmark(backupReadSpeed, backupWriteSpeed)] *)
  backup_benchmark : Z * Z;
  (** [coordinator->enlistServer(...)] *)
  coordinator_enlistServer : FailureDetector.Outcome ServerId.t;
  (** [Cycles::rdtsc()] *)
  Cycles_rdtsc : Z
}.

(** The members of [class Server] its methods read and write; each
    [Tub] is [true] once constructed. *)
Record t : Type := Build {
  config : ServerConfig.t;
  serverId : ServerId.t;
  backupReadSpeed : Z;
  backupWriteSpeed : Z;
  coordinator : bool;
  master : bool;
  backup : bool;
  membership : bool;
  ping : bool;
  failureDetector : option FailureDetector.t
}.

(** [bindTransport ? bindTransport->addService(...) :
     serviceManager->addService(...)] *)
Definition registryOf (bindTransport : bool) : Registry :=
  if bindTransport then BindTransportRegistry else ServiceManagerRegistry.

Definition configured (s : t) (service : ServiceType) : bool :=
  ServiceMask.has (ServerConfig.services (config s)) (ServiceMask.single service).

(** [coordinator.construct(config.coordinatorLocator.c_str())] *)
Definition constructCoordinator (s : t) : t * list Event :=
  ({| config := config s; serverId := serverId s;
      backupReadSpeed := backupReadSpeed s;
      backupWriteSpeed := backupWriteSpeed s;
      coordinator := true; master := master s; backup := backup s;
      membership := membership s; ping := ping s;
      failureDetector := failureDetector s |},
   [ConstructCoordinatorClient (ServerConfig.coordinatorLocator (config s))]).

(** The [MASTER_SERVICE] block of [createAndRegisterServices]. *)
Definition registerMaster (bindTransport : bool) (s : t) : t * list Event :=
  if configured s MASTER_SERVICE then
    ({| config := config s; serverId := serverId s;
        backupReadSpeed := backupReadSpeed s;
        backupWriteSpeed := backupWriteSpeed s;
        coordinator := coordinator s; master := true; backup := backup s;
        membership := membership s; ping := ping s;
        failureDetector := failureDetector s |},
     [LogMasterBackups (ServerConfig.numReplicas (ServerConfig.master (config s)));
      ConstructMaster;
      AddService (registryOf bindTransport) MASTER_SERVICE])
  else (s, []).

(** The [BACKUP_SERVICE] block: the storage is benchmarked unless a
    mock speed is configured. *)
Definition registerBackup (bindTransport : bool) (w : World) (s : t)
    : t * list Event :=
  if configured s BACKUP_SERVICE then
    let mockSpeed := ServerConfig.mockSpeed (ServerConfig.backup (config s)) in
    let benchmarked := mockSpeed =? 0 in
    ({| config := config s; serverId := serverId s;
        backupReadSpeed :=
          if benchmarked then uint32 (fst (backup_benchmark w)) else mockSpeed;
        backupWriteSpeed :=
          if benchmarked then uint32 (snd (backup_benchmark w)) else mockSpeed;
        coordinator := coordinator s; master := master s; backup := true;
        membership := membership s; ping := ping s;
        failureDetector := failureDetector s |},
     [ConstructBackup] ++
     (if benchmarked then [BenchmarkBackup] else []) ++
     [AddService (registryOf bindTransport) BACKUP_SERVICE])
  else (s, []).

(** The [MEMBERSHIP_SERVICE] block. *)
Definition registerMembership (bindTransport : bool) (s : t) : t * list Event :=
  if configured s MEMBERSHIP_SERVICE then
    ({| config := config s; serverId := serverId s;
        backupReadSpeed := backupReadSpeed s;
        backupWriteSpeed := backupWriteSpeed s;
        coordinator := coordinator s; master := master s; backup := backup s;
        membership := true; ping := ping s;
        failureDetector := failureDetector s |},
     [ConstructMembership;
      AddService (registryOf bindTransport) MEMBERSHIP_SERVICE])
  else (s, []).

(** The [PING_SERVICE] block. *)
Definition registerPing (bindTransport : bool) (s : t) : t * list Event :=
  if configured s PING_SERVICE then
    ({| config := config s; serverId := serverId s;
        backupReadSpeed := backupReadSpeed s;
        backupWriteSpeed := backupWriteSpeed s;
        coordinator := coordinator s; master := master s; backup := backup s;
        membership := membership s; ping := true;
        failureDetector := failureDetector s |},
     [ConstructPing; AddService (registryOf bindTransport) PING_SERVICE])
  else (s, []).

(** [Server::createAndRegisterServices(bindTransport)]; [DIE] ends the
    process. *)
Definition createAndRegisterServices (bindTransport : bool) (w : World) (s : t)
    : FailureDetector.Outcome unit * t * list Event :=
  if configured s COORDINATOR_SERVICE
  then (FailureDetector.Aborted, s, [DieCoordinatorService])
  else
    let '(s1, es1) := constructCoordinator s in
    let '(s2, es2) := registerMaster bindTransport s1 in
    let '(s3, es3) := registerBackup bindTransport w s2 in
    let '(s4, es4) := registerMembership bindTransport s3 in
    let '(s5, es5) := registerPing bindTransport s4 in
    (FailureDetector.Returned tt, s5, es1 ++ es2 ++ es3 ++ es4 ++ es5).

(** [Server::enlist()] *)
Definition enlist (w : World) (s : t)
    : FailureDetector.Outcome unit * t * list Event :=
  let request :=
    EnlistServer (ServerConfig.services (config s))
      (ServerConfig.localLocator (config s))
      (backupReadSpeed s) (backupWriteSpeed s) in
  match coordinator_enlistServer w with
  | FailureDetector.Returned id =>
      (FailureDetector.Returned tt,
       {| config := config s; serverId := id;
          backupReadSpeed := backupReadSpeed s;
          backupWriteSpeed := backupWriteSpeed s;
          coordinator := coordinator s; master := master s;
          backup := backup s; membership := membership s; ping := ping s;
          failureDetector :=
            if ServerConfig.detectFailures (config s)
            then Some (FailureDetector.create id)
            else failureDetector s |},
       [request] ++
       (if master s then [InitMaster id] else []) ++
       (if backup s then [InitBackup id] else []) ++
       (if ServerConfig.detectFailures (config s)
        then [StartFailureDetector
                (ServerConfig.coordinatorLocator (config s)) id]
        else []))
  | FailureDetector.Thrown e => (FailureDetector.Thrown e, s, [request])
  | FailureDetector.Aborted => (FailureDetector.Aborted, s, [request])
  end.

(** [Server::startForTesting(bindTransport)] *)
Definition startForTesting (w : World) (s : t)
    : FailureDetector.Outcome unit * t * list Event :=
  match createAndRegisterServices true w s with
  | (FailureDetector.Returned _, s1, es1) =>
      let '(o, s2, es2) := enlist w s1 in (o, s2, es1 ++ es2)
  | r => r
  end.

(** [Server::run()] up to its dispatch loop, which never returns. *)
Definition run (w : World) (s : t)
    : FailureDetector.Outcome unit * t * list Event :=
  match createAndRegisterServices false w s with
  | (FailureDetector.Returned _, s1, es1) =>
      let '(o, s2, es2) := enlist w s1 in
      (o, s2, es1 ++ [PinAllMemory; SetDispatchTime (Cycles_rdtsc w)] ++ es2)
  | r => r
  end.

(** The registrations in a trace. *)
Definition registered (es : list Event) : list (Registry * ServiceType) :=
  omap (fun e => match e with
                 | AddService r svc => Some (r, svc)
                 | _ => None
                 end) es.

(** Whether the backup storage was benchmarked. *)
Definition benchmarked (es : list Event) : bool :=
  existsb (fun e => match e with BenchmarkBackup => true | _ => false end) es.

End Server.

(** ** ClusterPerf.cc: utility functions *)

Module ClusterPerf.

(** A C++ [int], with the wrap-around written out. *)
Definition int32 (z : Z) : Z := (z + 2 ^ 31) mod 2 ^ 32 - 2 ^ 31.

(** [enum Id]: the control objects of a client. *)
Inductive Id : Type := STATE | COMMAND | DOC | METRICS.

Definition Id_value (id : Id) : Z :=
  match id with STATE => 0 | COMMAND => 1 | DOC => 2 | METRICS => 3 end.

(** [objectId(client, id)]: [(client << 8) + id] computed in [int] and
    returned as a [uint64_t]. *)
Definition objectId (client : Z) (id : Id) : Z :=
  uint64 (int32 (int32 (Z.shiftl client 8) + Id_value id)).

(** The contents of a [Buffer]: its bytes. *)
Definition Buffer : Type := list Ascii.ascii.

(** ["%d"] *)
Definition decimal (z : Z) : list Ascii.ascii :=
  String.list_ascii_of_string
    (DecimalString.NilZero.string_of_int (Z.to_int z)).

(** ["%x"] and ["%lx"] *)
Definition hexadecimal (z : Z) : list Ascii.ascii :=
  String.list_ascii_of_string
    (HexadecimalString.NilZero.string_of_uint (N.to_hex_uint (Z.to_N z))).

(** The text ["| %d: tableId 0x%x, objectId 0x%lx %s"] formats. *)
Definition chunkText (position tableId objectId : Z) : list Ascii.ascii :=
  String.list_ascii_of_string "| " ++ decimal position ++
  String.list_ascii_of_string ": tableId 0x" ++ hexadecimal tableId ++
  String.list_ascii_of_string ", objectId 0x" ++ hexadecimal objectId ++
  String.list_ascii_of_string " " ++
  String.list_ascii_of_string "0123456789012345678901234567890123456789".

(** [sizeof(chunk)] *)
Definition CHUNK_SIZE : Z := 51.

(** [snprintf(chunk, sizeof(chunk), ...)]: the characters of the text
    that fit before the terminating NUL. *)
Definition chunk (position tableId objectId : Z) : list Ascii.ascii :=
  take (Z.to_nat (CHUNK_SIZE - 1)) (chunkText position tableId objectId).

(** The [while (bytesLeft > 0)] loop of [fillBuffer]; [None] when the
    fuel runs out before the loop ends. *)
Fixpoint fillLoop (fuel : nat) (tableId objectId : Z)
    (bytesLeft position : Z) (buffer : Buffer) : option Buffer :=
  if bytesLeft >? 0 then
    match fuel with
    | O => None
    | S fuel' =>
        let chunkLength :=
          if CHUNK_SIZE - 1 >? bytesLeft then bytesLeft else CHUNK_SIZE - 1 in
        fillLoop fuel' tableId objectId
          (uint32 (bytesLeft - chunkLength))
          (int32 (position + chunkLength))
          (buffer ++ take (Z.to_nat chunkLength)
                       (chunk position tableId objectId))
    end
  else Some buffer.

(** [fillBuffer(buffer, size, tableId, objectId)]: the buffer is reset
    and filled; every pass of the loop writes at least one byte, so
    [size] passes are enough. *)
Definition fillBuffer (size tableId objectId : Z) : option Buffer :=
  fillLoop (Z.to_nat size) tableId objectId size 0 [].

(** The data [fillBuffer] cuts from: [n] chunks, one every
    [sizeof(chunk) - 1] positions from [position] on. *)
Fixpoint pattern (n : nat) (tableId objectId position : Z)
    : list Ascii.ascii :=
  match n with
  | O => []
  | S n' =>
      chunk position tableId objectId ++
      pattern n' tableId objectId (int32 (position + (CHUNK_SIZE - 1)))
  end.

(** What [checkBuffer] logs. *)
Inductive CheckLog : Type :=
| WrongLength (expected found : Z)
| WrongData (expected got : Ascii.ascii) (prefixDots : bool) (start length : Z)
    (suffixDots : bool) (comparisonRange bufferRange : option (list Ascii.ascii)).

(** [buffer.getRange(offset, length)]: [NULL] when the range leaves the
    buffer. *)
Definition getRange (buffer : Buffer) (offset length : Z)
    : option (list Ascii.ascii) :=
  if offset + length <=? Z.of_nat (List.length buffer)
  then Some (take (Z.to_nat length) (drop (Z.to_nat offset) buffer))
  else None.

(** The [for] loop of [checkBuffer]: the first index at which the two
    buffers differ, with the two characters. *)
Fixpoint firstMismatch (i : Z) (buffer comparison : Buffer)
    : option (Z * Ascii.ascii * Ascii.ascii) :=
  match buffer, comparison with
  | c1 :: buffer', c2 :: comparison' =>
      if Ascii.eqb c1 c2
      then firstMismatch (uint32 (i + 1)) buffer' comparison'
      else Some (i, c1, c2)
  | _, _ => None
  end.

(** What [checkBuffer] reports for a mismatch at index [i]. *)
Definition mismatchLog (buffer comparison : Buffer) (expectedLength : Z)
    (i : Z) (c1 c2 : Ascii.ascii) : CheckLog :=
  let start0 := int32 (uint32 (i - 10)) in
  let prefixDots := negb (start0 <=? 0) in
  let start := if start0 <=? 0 then 0 else start0 in
  let shortened := uint32 (start + 20) >=? expectedLength in
  let length := if shortened then uint32 (expectedLength - start) else 20 in
  WrongData c2 c1 prefixDots start length (negb shortened)
    (getRange comparison start length) (getRange buffer start length).

(** [checkBuffer(buffer, expectedLength, tableId, objectId)]: the
    verdict and what is logged; [None] only if [fillBuffer] ran out of
    fuel. *)
Definition checkBuffer (buffer : Buffer) (expectedLength tableId objectId : Z)
    : option (bool * list CheckLog) :=
  let length := uint32 (Z.of_nat (List.length buffer)) in
  if negb (length =? expectedLength)
  then Some (false, [WrongLength expectedLength length])
  else
    match fillBuffer expectedLength tableId objectId with
    | None => None
    | Some comparison =>
        match firstMismatch 0 buffer comparison with
        | Some (i, c1, c2) =>
            Some (false,
                  [mismatchLog buffer comparison expectedLength i c1 c2])
        | None => Some (true, [])
        end
    end.

(** How [cluster->read(tableId, objectId, &buffer)] ends. *)
Inductive ReadResult : Type :=
| ObjectRead (value : Buffer)
| TableDoesntExistException
| ObjectDoesntExistException.

(** [readObject(tableId, objectId, value, size)] once the object is
    read: [value] is the caller's array of [size] characters.  A write
    past the end of [value] is left out. *)
Definition readObject (object : Buffer) (value : list Ascii.ascii) (size : Z)
    : list Ascii.ascii :=
  let total := uint32 (Z.of_nat (List.length object)) in
  let actual := if size <=? total then uint32 (size - 1) else total in
  let copied := take (Z.to_nat size) object in
  let value1 := copied ++ drop (List.length copied) value in
  <[Z.to_nat actual := Ascii.zero]> value1.

(** The C string an array holds: the characters before the first NUL. *)
Fixpoint cString (value : list Ascii.ascii) : list Ascii.ascii :=
  match value with
  | [] => []
  | c :: rest => if Ascii.eqb c Ascii.zero then [] else c :: cString rest
  end.

(** How [cluster->remove(tableId, objectId)] ends. *)
Inductive RemoveResult : Type :=
| ObjectRemoved
| RemoveTableDoesntExist
| RemoveObjectDoesntExist.

(** One turn of a polling loop as the cluster answers it: what the read
    gives, and what the remove gives if the loop gets to it. *)
Record Poll : Type := {
  pollRead : ReadResult;
  pollRemove : RemoveResult
}.

(** What a polling loop does to the outside. *)
Inductive ControlEvent : Type :=
| ReadObject (tableId objectId : Z)
| RemoveObject (tableId objectId : Z)
| Usleep (usecs : Z).

Definition idle : list Ascii.ascii := String.list_ascii_of_string "idle".

Section Control.

Variables (controlTable clientIndex : Z).

(** [getCommand(buffer, size)], run on the answers [polls] of the
    cluster, one per turn of its loop; [None] when the answers are used
    up and the loop is still polling. *)
Fixpoint getCommand (polls : list Poll) (buffer : list Ascii.ascii)
    (size : Z) : option (list Ascii.ascii) * list ControlEvent :=
  match polls with
  | [] => (None, [])
  | poll :: later =>
      let id := objectId clientIndex COMMAND in
      let again buffer' events :=
        let '(result, rest) := getCommand later buffer' size in
        (result, events ++ Usleep 10000 :: rest) in
      match pollRead poll with
      | ObjectRead object =>
          let buffer1 := readObject object buffer size in
          if bool_decide (cString buffer1 <> idle)
          then
            match pollRemove poll with
            | ObjectRemoved =>
                (Some buffer1,
                 [ReadObject controlTable id; RemoveObject controlTable id])
            | _ =>
                again buffer1
                  [ReadObject controlTable id; RemoveObject controlTable id]
            end
          else again buffer1 [ReadObject controlTable id]
      | _ => again buffer [ReadObject controlTable id]
      end
  end.

End Control.

Definition isUsleep (e : ControlEvent) : bool :=
  match e with Usleep _ => true | _ => false end.

(** How often a loop slept. *)
Definition sleeps (events : list ControlEvent) : nat :=
  length (List.filter isUsleep events).

(** The command an object holds for a reader with an array of [size]
    characters: its text up to the first NUL, cut to [size - 1]. *)
Definition command (size : Z) (object : Buffer) : list Ascii.ascii :=
  cString (take (Z.to_nat (Z.min (Z.of_nat (length object)) (size - 1))) object).

(** A turn that ends the polling: a command other than [idle] is read
    and its removal goes through. *)
Definition delivers (size : Z) (poll : Poll) : bool :=
  match pollRead poll, pollRemove poll with
  | ObjectRead object, ObjectRemoved => bool_decide (command size object <> idle)
  | _, _ => false
  end.

(** Objects are shorter than [2^32] bytes ([getTotalLength] is a
    [uint32_t]). *)
Definition readable (poll : Poll) : Prop :=
  match pollRead poll with
  | ObjectRead object => Z.of_nat (length object) < 2 ^ 32
  | _ => True
  end.

End ClusterPerf.

(** ** Transport test script: escaping of service locators *)

Module TransportSmack.

Definition backslash : Ascii.ascii := Ascii.ascii_of_nat 92.
Definition quote : Ascii.ascii := Ascii.ascii_of_nat 34.
Definition comma : Ascii.ascii := Ascii.ascii_of_nat 44.
Definition semicolon : Ascii.ascii := Ascii.ascii_of_nat 59.

(** [s.replace(old, new)] for a one-character [old]: every occurrence
    is replaced, left to right. *)
Definition replace (old : Ascii.ascii) (new s : list Ascii.ascii) :
    list Ascii.ascii :=
  flat_map (fun c => if Ascii.eqb c old then new else [c]) s.

(** [addbs(s, chars)]: backslashes are doubled first, then the
    characters of [chars] are handled one after the other, each by a
    [replace] on the result of the previous ones. *)
Definition addbs (s chars : list Ascii.ascii) : list Ascii.ascii :=
  fold_left (fun s char => replace char [backslash; char] s) chars
    (replace backslash [backslash; backslash] s).

(** [escapeq(sl)]. *)
Definition escapeq (sl : list Ascii.ascii) : list Ascii.ascii :=
  [quote] ++ addbs sl [quote] ++ [quote].

(** [escape(sl)]. *)
Definition escape (sl : list Ascii.ascii) : list Ascii.ascii :=
  addbs sl [quote; comma; semicolon].

(** One character escaped once: a backslash in front of a backslash and
    of the characters of [chars], the others as they are.  This is what
    [addbs] is compared with below. *)
Definition escapedOnce (chars : list Ascii.ascii) (c : Ascii.ascii) :
    list Ascii.ascii :=
  if decide (c = backslash \/ c ∈ chars) then [backslash; c] else [c].

End TransportSmack.

(** ** Fixtures

    Concrete trackers, detectors and worlds the properties below are
    exercised on. *)

Module Fixtures.

Import ServerTracker.

(** [ServerDetails(ServerId(i, g))] *)
Definition details (i g : Z) : ServerDetails.t :=
  ServerDetails.Build (ServerId.make i g) EmptyString ServiceMask.empty.

Definition detailsWith (i g : Z) (locator : string)
    (services : list ServiceMask.ServiceType) : ServerDetails.t :=
  ServerDetails.Build (ServerId.make i g) locator (ServiceMask.ofList services).

(** The tracker of test [getChange] once the subscriber has consumed the
    [ADDED] of server (2, 0), annotated it with 57 and the directory has
    queued its [REMOVED]. *)
Definition test_getChange_removing : t :=
  let tr1 :=
    enqueueChange (create false)
      (detailsWith 2 0 "Prophylaxis" [ServiceMask.BACKUP_SERVICE])
      SERVER_ADDED in
  let tr2 := fst (getChange tr1) in
  let tr3 := default tr2 (setPointer tr2 (ServerId.make 2 0) 57) in
  enqueueChange tr3 (details 2 0) SERVER_REMOVED.

Import FailureDetector.

(** A world in which the tracker picks server (2, 1), its locator is
    known, the ping times out, the coordinator cannot be reached, the
    local server list is at version 7 and the clock reads 600 ms. *)
Definition unreachable : World :=
  {| serverTracker_getRandomServerIdWithService := fun _ => ServerId.make 2 1;
     generateRandom := 99;
     serverList_getLocator := fun _ => Some "mock:host=peer";
     serverList_getVersion := 7;
     pingClient_ping := fun _ _ _ => Thrown TimeoutException;
     coordinatorClient_hintServerDown := fun _ => Thrown TransportException;
     coordinatorClient_requestServerList := fun _ => Thrown TransportException;
     Cycles_rdtsc := 600000000 |}.

(** The same world once the local server list has reached version 11. *)
Definition caughtUp : World :=
  {| serverTracker_getRandomServerIdWithService := fun _ => ServerId.make 2 1;
     generateRandom := 99;
     serverList_getLocator := fun _ => Some "mock:host=peer";
     serverList_getVersion := 11;
     pingClient_ping := fun _ _ _ => Thrown TimeoutException;
     coordinatorClient_hintServerDown := fun _ => Thrown TransportException;
     coordinatorClient_requestServerList := fun _ => Thrown TransportException;
     Cycles_rdtsc := 600000000 |}.

(** A world shortly after tick 0: the local server list is still at
    version 7 and the clock reads 100 ns. *)
Definition stillWaiting : World :=
  {| serverTracker_getRandomServerIdWithService := fun _ => ServerId.make 2 1;
     generateRandom := 99;
     serverList_getLocator := fun _ => Some "mock:host=peer";
     serverList_getVersion := 7;
     pingClient_ping := fun _ _ _ => Returned 10;
     coordinatorClient_hintServerDown := fun _ => Returned tt;
     coordinatorClient_requestServerList := fun _ => Returned tt;
     Cycles_rdtsc := 100 |}.

(** Server (1, 0), suspecting since tick 0 that version 7 is stale. *)
Definition suspecting : FailureDetector.t :=
  {| ourServerId := ServerId.make 1 0;
     staleServerListSuspected := true;
     staleServerListVersion := 7;
     staleServerListTimestamp := 0 |}.

(** A clock of one tick per nanosecond. *)
Definition nanosecondTicks (ticks : Z) : Z := ticks.

End Fixtures.

Module MoreFixtures.

(** The value [strtoull] gives on a string that starts with decimal
    digits: the number they spell, up to the first other character. *)
Fixpoint leadingDigits (acc : Z) (s : string) : Z :=
  match s with
  | EmptyString => acc
  | String c rest =>
      let n := Z.of_nat (Ascii.nat_of_ascii c) in
      if (48 <=? n) && (n <=? 57)
      then leadingDigits (10 * acc + (n - 48)) rest
      else acc
  end.

Definition digitsValue (s : string) : Z := leadingDigits 0 s.

End MoreFixtures.

(** * Properties *)

(** ** ServerId *)

Module ServerIdFacts.

Import ServerId.

Lemma INVALID_value : INVALID_SERVERID_GENERATION_NUMBER = 0xFFFFFFFF.
Proof. reflexivity. Qed.

Lemma uint32_small z : 0 <= z < 2 ^ 32 -> uint32 z = z.
Proof. intros H. unfold uint32. apply Z.mod_small. exact H. Qed.

Lemma uint64_small z : 0 <= z < 2 ^ 64 -> uint64 z = z.
Proof. intros H. unfold uint64. apply Z.mod_small. exact H. Qed.

(** The two halves of an id share no bit. *)
Lemma halves_disjoint i g :
  0 <= i < 2 ^ 32 -> Z.land (g * 2 ^ 32) i = 0.
Proof.
  intros Hi. apply Z.bits_inj'. intros n Hn.
  rewrite Z.land_spec, Z.bits_0.
  destruct (Z.lt_ge_cases n 32) as [Hlt|Hge].
  - rewrite Z.mul_pow2_bits_low by lia. reflexivity.
  - replace (Z.testbit i n) with false; [apply andb_false_r|].
    symmetry.
    destruct (Z.eq_dec i 0) as [->|Hne]; [apply Z.bits_0|].
    apply Z.bits_above_log2; [lia|].
    apply Z.lt_le_trans with 32; [|exact Hge].
    apply Z.log2_lt_pow2; lia.
Qed.

(** [(g << 32) | i] is [g * 2^32 + i] when [i] fits the lower half. *)
Lemma lor_shiftl_add i g :
  0 <= i < 2 ^ 32 ->
  Z.lor (Z.shiftl g 32) i = g * 2 ^ 32 + i.
Proof.
  intros Hi.
  rewrite Z.shiftl_mul_pow2 by lia.
  rewrite <- Z.lxor_lor by (apply halves_disjoint; exact Hi).
  symmetry. apply Z.add_nocarry_lxor. apply halves_disjoint; exact Hi.
Qed.

Lemma make_serverId i g :
  0 <= i < 2 ^ 32 -> 0 <= g < 2 ^ 32 ->
  serverId (make i g) = Z.lor (Z.shiftl g 32) i.
Proof.
  intros Hi Hg. unfold make. cbn [serverId].
  rewrite (uint32_small i Hi), (uint32_small g Hg).
  rewrite uint64_small; [reflexivity|].
  rewrite Z.shiftl_mul_pow2 by lia. lia.
Qed.

Lemma make_generation i g :
  0 <= i < 2 ^ 32 -> 0 <= g < 2 ^ 32 ->
  _generationNumber (make i g) = g.
Proof.
  intros Hi Hg. unfold _generationNumber.
  rewrite make_serverId, lor_shiftl_add by assumption.
  rewrite Z.shiftr_div_pow2 by lia.
  rewrite Z.div_add_l by lia.
  rewrite Z.div_small by lia. lia.
Qed.

Lemma make_index_bits i g :
  0 <= i < 2 ^ 32 -> 0 <= g < 2 ^ 32 ->
  uint32 (Z.land (serverId (make i g)) 0xffffffff) = i.
Proof.
  intros Hi Hg.
  rewrite make_serverId, lor_shiftl_add by assumption.
  change 0xffffffff with (Z.ones 32).
  rewrite Z.land_ones by lia.
  rewrite Z.add_comm, Z.mod_add by lia.
  rewrite Z.mod_small by lia. apply uint32_small; exact Hi.
Qed.

Lemma make_isValid i g :
  0 <= i < 2 ^ 32 -> 0 <= g < 2 ^ 32 ->
  isValid (make i g) = negb (g =? 0xFFFFFFFF).
Proof.
  intros Hi Hg. unfold isValid. rewrite make_generation by assumption.
  reflexivity.
Qed.

Lemma eqb_refl a : eqb a a = true.
Proof.
  unfold eqb. destruct (isValid a); cbn; [apply Z.eqb_refl|reflexivity].
Qed.

Lemma eqb_sym a b : eqb a b = eqb b a.
Proof.
  unfold eqb. rewrite (Z.eqb_sym (serverId a)).
  destruct (isValid a), (isValid b); reflexivity.
Qed.

Lemma serverId_inj a b : serverId a = serverId b -> a = b.
Proof. destruct a, b. cbn. intros ->. reflexivity. Qed.

Lemma eqb_valid a b :
  isValid a = true -> eqb a b = true -> a = b.
Proof.
  unfold eqb. intros ->. cbn. intros H.
  apply serverId_inj. apply Z.eqb_eq. exact H.
Qed.

Lemma eqb_trans a b c : eqb a b = true -> eqb b c = true -> eqb a c = true.
Proof.
  intros Hab Hbc.
  destruct (isValid a) eqn:Ha.
  - apply (eqb_valid _ _ Ha) in Hab. subst b. exact Hbc.
  - destruct (isValid b) eqn:Hb.
    + rewrite eqb_sym in Hab. apply (eqb_valid _ _ Hb) in Hab. subst b.
      congruence.
    + destruct (isValid c) eqn:Hc.
      * rewrite eqb_sym in Hbc. apply (eqb_valid _ _ Hc) in Hbc. subst c.
        congruence.
      * unfold eqb. rewrite Ha, Hc. reflexivity.
Qed.

(** C7.  For every valid ServerId [x], [getId] returns its 64-bit form
    and the ServerId rebuilt from that form is [x] again, so
    [ServerId(x.getId()) == x]. *)
Theorem fromId_getId_roundtrip (x : t) :
  wf x -> isValid x = true ->
  exists id, getId x = Some id /\ fromId id = x /\ eqb (fromId id) x = true.
Proof.
  intros Hwf Hvalid. exists (serverId x). unfold getId. rewrite Hvalid.
  assert (Hx : fromId (serverId x) = x).
  { apply serverId_inj. unfold fromId. cbn [serverId].
    apply uint64_small. exact Hwf. }
  rewrite Hx. repeat split. apply eqb_refl.
Qed.

Lemma fromId_getId_roundtrip_witness :
  exists id, getId (make 7 3) = Some id /\ fromId id = make 7 3 /\
             eqb (fromId id) (make 7 3) = true.
Proof.
  apply (fromId_getId_roundtrip (make 7 3)).
  - unfold wf. vm_compute. split; [discriminate|reflexivity].
  - reflexivity.
Defined.

(** C8, as the claim states it: the accessors of every constructed id,
    the invalid ones included, would give back index and generation.
    They do not: on an id with generation [0xFFFFFFFF] each accessor
    stops at its [assert(isValid())]. *)
Lemma make_accessors_counterexample :
  ~ (forall i g, 0 <= i < 2 ^ 32 -> 0 <= g < 2 ^ 32 ->
       getId (make i g) = Some (Z.lor (Z.shiftl g 32) i) /\
       indexNumber (make i g) = Some i /\
       generationNumber (make i g) = Some g /\
       (isValid (make i g) = false <-> g = 0xFFFFFFFF) /\
       isValid default = false).
Proof.
  intros H. destruct (H 5 0xFFFFFFFF) as (_ & Hidx & _); [lia|lia|].
  vm_compute in Hidx. discriminate Hidx.
Qed.

(** C8, amended.  For every 32-bit index [i] and generation [g] the
    constructed id holds [(g << 32) | i] and is invalid exactly when
    [g = 0xFFFFFFFF]; when it is valid, [getId] returns that value,
    [indexNumber] returns [i] and [generationNumber] returns [g]; when
    it is invalid the three accessors fail their assertion.  The
    default-constructed id is invalid. *)
Theorem make_encoding (i g : Z) :
  0 <= i < 2 ^ 32 -> 0 <= g < 2 ^ 32 ->
  serverId (make i g) = Z.lor (Z.shiftl g 32) i /\
  (isValid (make i g) = false <-> g = 0xFFFFFFFF) /\
  (g <> 0xFFFFFFFF ->
     getId (make i g) = Some (Z.lor (Z.shiftl g 32) i) /\
     indexNumber (make i g) = Some i /\
     generationNumber (make i g) = Some g) /\
  (g = 0xFFFFFFFF ->
     getId (make i g) = None /\
     indexNumber (make i g) = None /\
     generationNumber (make i g) = None) /\
  isValid default = false.
Proof.
  intros Hi Hg.
  pose proof (make_isValid i g Hi Hg) as Hv.
  split; [apply make_serverId; assumption|].
  split.
  { rewrite Hv. destruct (Z.eqb_spec g 0xFFFFFFFF); cbn; split; congruence. }
  split.
  { intros Hne. unfold getId, indexNumber, generationNumber.
    rewrite Hv. destruct (Z.eqb_spec g 0xFFFFFFFF) as [|_]; [contradiction|].
    cbn [negb]. rewrite make_serverId by assumption.
    rewrite <- (make_serverId i g Hi Hg).
    rewrite make_index_bits, make_generation by assumption.
    repeat split. }
  split.
  { intros Heq. unfold getId, indexNumber, generationNumber.
    rewrite Hv. destruct (Z.eqb_spec g 0xFFFFFFFF) as [_|]; [|contradiction].
    repeat split. }
  reflexivity.
Qed.

Lemma make_encoding_witness :
  serverId (make 2 9) = Z.lor (Z.shiftl 9 32) 2 /\
  (isValid (make 2 9) = false <-> 9 = 0xFFFFFFFF) /\
  (9 <> 0xFFFFFFFF ->
     getId (make 2 9) = Some (Z.lor (Z.shiftl 9 32) 2) /\
     indexNumber (make 2 9) = Some 2 /\
     generationNumber (make 2 9) = Some 9) /\
  (9 = 0xFFFFFFFF ->
     getId (make 2 9) = None /\
     indexNumber (make 2 9) = None /\
     generationNumber (make 2 9) = None) /\
  isValid default = false.
Proof. apply (make_encoding 2 9); lia. Defined.

(** C10.  Equality of ServerIds is not bitwise: two invalid ids are
    equal whatever their index bits; two valid ids are equal exactly
    when their 64-bit representations are; [!=] is the negation of
    [==]; and [==] is reflexive, symmetric and transitive. *)
Theorem eqb_equivalence :
  (forall a b, isValid a = false -> isValid b = false -> eqb a b = true) /\
  (forall a b, isValid a = true -> isValid b = true ->
     (eqb a b = true <-> serverId a = serverId b)) /\
  (forall a b, neqb a b = negb (eqb a b)) /\
  (forall a, eqb a a = true) /\
  (forall a b, eqb a b = eqb b a) /\
  (forall a b c, eqb a b = true -> eqb b c = true -> eqb a c = true) /\
  (exists a b, serverId a <> serverId b /\ eqb a b = true).
Proof.
  split.
  { intros a b Ha Hb. unfold eqb. rewrite Ha, Hb. reflexivity. }
  split.
  { intros a b Ha Hb. unfold eqb. rewrite Ha. cbn. apply Z.eqb_eq. }
  split; [reflexivity|].
  split; [apply eqb_refl|].
  split; [apply eqb_sym|].
  split; [apply eqb_trans|].
  exists (make 1 0xFFFFFFFF), (make 2 0xFFFFFFFF).
  split; [vm_compute; discriminate|reflexivity].
Qed.

Lemma eqb_equivalence_witness :
  eqb (make 1 0xFFFFFFFF) (make 2 0xFFFFFFFF) = true /\
  (eqb (make 4 1) (make 4 1) = true <->
   serverId (make 4 1) = serverId (make 4 1)) /\
  (eqb (make 4 1) (make 4 2) = true <->
   serverId (make 4 1) = serverId (make 4 2)).
Proof.
  destruct eqb_equivalence as (Hinv & Hval & _).
  split; [apply Hinv; reflexivity|].
  split; apply Hval; reflexivity.
Defined.

End ServerIdFacts.

(** ** ServerConfig *)

Module ServerConfigFacts.

Import ServerConfig.

(** C9, as the claim states it: the production configuration would
    default [numReplicas] to 3.  [Master()] value-initializes it. *)
Lemma numReplicas_execution_counterexample :
  ~ (forall SEGMENT_SIZE,
       numReplicas (master (forExecution SEGMENT_SIZE)) = 3 /\
       numReplicas (master forTesting) = 0).
Proof.
  intros H. destruct (H (8 * 1024 * 1024)) as [H3 _].
  cbn in H3. discriminate H3.
Qed.

(** C9, amended.  [numReplicas] defaults to 0 both in the production
    configuration ([forExecution]) and in the testing configuration
    ([forTesting]). *)
Theorem numReplicas_defaults (SEGMENT_SIZE : Z) :
  numReplicas (master (forExecution SEGMENT_SIZE)) = 0 /\
  numReplicas (master forTesting) = 0.
Proof. split; reflexivity. Qed.

End ServerConfigFacts.

(** ** The server tracker *)

Module ServerTrackerFacts.

Import ServerTracker Fixtures.

(** The unit tests of [ServerTrackerTest.cc], replayed on the model. *)

Example test_enqueueChange :
  let tr := enqueueChange (create false) (details 2 0) SERVER_ADDED in
  let trcb1 := enqueueChange (create true) (details 0 0) SERVER_ADDED in
  let trcb2 := enqueueChange trcb1 (details 0 0) SERVER_REMOVED in
  length (serverList tr) = 3%nat /\
  length (changes tr) = 1%nat /\
  callbacksFired trcb1 = 1%nat /\
  callbacksFired trcb2 = 2%nat /\
  Forall (fun slot => slot = blank) (serverList tr) /\
  Forall (fun slot => slot = blank) (serverList trcb2).
Proof. repeat split; repeat constructor. Qed.

Example test_getChange :
  let tr4 := test_getChange_removing in
  getPointer tr4 (ServerId.make 2 0) = Some 57 /\
  snd (getChange tr4) = Some (details 2 0, SERVER_REMOVED) /\
  lastRemovedIndex (fst (getChange tr4)) = 2 /\
  let tr6 := fst (getChange (fst (getChange tr4))) in
  snd (getChange (fst (getChange tr4))) = None /\
  log tr6 = [PointerNotNulled WARNING 2 2] /\
  serverList tr6 !! 2%nat = Some blank /\
  lastRemovedIndex tr6 = NO_INDEX.
Proof. vm_compute. repeat split. Qed.

Example test_size :
  let tr1 := enqueueChange (create false) (details 0 0) SERVER_ADDED in
  let tr2 := fst (getChange tr1) in
  let tr3 := enqueueChange tr2 (details 0 0) SERVER_REMOVED in
  let tr4 := fst (getChange tr3) in
  size (create false) = 0 /\ size tr1 = 0 /\ size tr2 = 1 /\
  size tr3 = 1 /\ size tr4 = 0.
Proof. vm_compute. repeat split. Qed.

Example test_indexOperator :
  let tr0 := create false in
  let tr1 := enqueueChange tr0 (details 0 0) SERVER_ADDED in
  let tr2 := fst (getChange tr1) in
  let tr3 := default tr2 (setPointer tr2 (ServerId.make 0 0) 45) in
  let tr4 := enqueueChange tr3 (details 0 0) SERVER_REMOVED in
  let tr5 := fst (getChange tr4) in
  let tr6 := fst (getChange tr5) in
  getPointer tr0 (ServerId.make 0 0) = None /\
  getPointer tr3 (ServerId.make 0 1) = None /\
  getPointer tr3 (ServerId.make 0 0) = Some 45 /\
  getPointer tr5 (ServerId.make 0 0) = Some 45 /\
  getPointer tr6 (ServerId.make 0 0) = None /\
  pointer <$> serverList tr6 !! 0%nat = Some NULL.
Proof. vm_compute. repeat split. Qed.

Example test_getRandomServerIdWithService :
  let master := ServiceMask.single ServiceMask.MASTER_SERVICE in
  let backup := ServiceMask.single ServiceMask.BACKUP_SERVICE in
  let tr0 := create false in
  let tr1 :=
    enqueueChange tr0
      (detailsWith 0 1 EmptyString [ServiceMask.MASTER_SERVICE]) SERVER_ADDED in
  let tr2 := fst (getChange tr1) in
  let tr3 :=
    enqueueChange tr2
      (detailsWith 1 1 EmptyString [ServiceMask.MASTER_SERVICE]) SERVER_ADDED in
  let tr4 := fst (getChange tr3) in
  let tr5 :=
    enqueueChange (enqueueChange tr4 (details 0 1) SERVER_REMOVED)
      (details 1 1) SERVER_REMOVED in
  let tr6 := fst (getChange (fst (getChange tr5))) in
  ServerId.isValid (getRandomServerIdWithService tr0 master 11) = false /\
  ServerId.isValid (getRandomServerIdWithService tr1 master 11) = false /\
  getRandomServerIdWithService tr2 master 11 = ServerId.make 0 1 /\
  getRandomServerIdWithService tr2 backup 11 = ServerId.default /\
  getRandomServerIdWithService tr4 master 10 = ServerId.make 0 1 /\
  getRandomServerIdWithService tr4 master 11 = ServerId.make 1 1 /\
  ServerId.isValid (getRandomServerIdWithService tr6 master 11) = false.
Proof. vm_compute. repeat split. Qed.

(** What a [get_change] that hands out a [REMOVED] leaves behind. *)
Lemma getChange_removed_fields tr tr1 s :
  getChange tr = (tr1, Some (s, SERVER_REMOVED)) ->
  lastRemovedIndex tr1 = slotIndex (ServerDetails.serverId s) /\
  serverList tr1 = serverList (clearLastRemoved tr) /\
  numberOfServers tr1 = uint32 (numberOfServers tr - 1).
Proof.
  unfold getChange.
  destruct (changes (clearLastRemoved tr)) as [|[cs ce] rest] eqn:E;
    intros H; inversion H; subst.
  unfold applyChange. cbn.
  repeat split. unfold clearLastRemoved.
  destruct (lastRemovedIndex tr =? NO_INDEX); reflexivity.
Qed.

Lemma clearLastRemoved_pending tr i slot :
  lastRemovedIndex tr <> NO_INDEX ->
  serverList tr !! Z.to_nat (lastRemovedIndex tr) = Some slot ->
  i = Z.to_nat (lastRemovedIndex tr) ->
  serverList (clearLastRemoved tr) !! i = Some blank /\
  lastRemovedIndex (clearLastRemoved tr) = NO_INDEX /\
  changes (clearLastRemoved tr) = changes tr /\
  log (clearLastRemoved tr) =
    log tr ++
    (if pointer slot =? NULL then []
     else [PointerNotNulled WARNING (lastRemovedIndex tr)
             (ServerId.serverId (ServerDetails.serverId (server slot)))]).
Proof.
  intros Hne Hl ->. unfold clearLastRemoved.
  destruct (Z.eqb_spec (lastRemovedIndex tr) NO_INDEX) as [|_];
    [contradiction|].
  cbn. rewrite Hl. repeat split.
  apply list_lookup_insert_eq. eapply lookup_lt_Some. exact Hl.
Qed.

(** Applying a popped change leaves a blank slot blank or fills it with
    the server just added; the annotation stays null and the log is not
    touched. *)
Lemma applyChange_blank tr c rest i :
  serverList tr !! i = Some blank ->
  log (applyChange tr c rest) = log tr /\
  exists slot,
    serverList (applyChange tr c rest) !! i = Some slot /\
    pointer slot = NULL /\
    (server slot = ServerDetails.default \/
     change_event c = SERVER_ADDED /\ server slot = change_server c).
Proof.
  intros Hl. unfold applyChange.
  destruct (change_event c) eqn:Hev; cbn.
  - split; [reflexivity|].
    destruct (decide
      (Z.to_nat (slotIndex (ServerDetails.serverId (change_server c))) = i))
      as [Heq|Hne].
    + exists (BuildSlot (change_server c) NULL).
      rewrite Heq, list_lookup_alter_eq, Hl. cbn.
      repeat split. right. split; reflexivity.
    + exists blank. rewrite list_lookup_alter_ne by exact Hne.
      repeat split; [exact Hl|]. left. reflexivity.
  - split; [reflexivity|]. exists blank.
    repeat split; [exact Hl|]. left. reflexivity.
Qed.

(** Annotation writes touch neither the queue, nor the pending
    removal, nor the log, nor the length of the vector. *)
Lemma annotated_fields tr tr' :
  annotated tr tr' ->
  lastRemovedIndex tr' = lastRemovedIndex tr /\
  changes tr' = changes tr /\
  log tr' = log tr /\
  length (serverList tr') = length (serverList tr).
Proof.
  induction 1 as [|tr1 id p tr2 _ IH Hset]; [repeat split|].
  destruct IH as (Hl & Hc & Hg & Hn).
  unfold setPointer in Hset.
  destruct (occupies tr1 id); [|discriminate].
  inversion Hset; subst; clear Hset. cbn.
  rewrite length_alter. repeat split; assumption.
Qed.

(** C4.  After [get_change] has handed out the [REMOVED] of a server
    (its index not being the all-ones value that marks "no removal
    pending"), and whatever annotation writes the subscriber then does,
    the next [get_change] clears the slot's identity (id, locator,
    services) and its annotation before it applies any further change;
    when the call returns the annotation is null and the slot is blank
    or holds the server whose [ADDED] this call handed out; and the
    tracker logs a warning exactly when the annotation had been left
    non-null, clearing it all the same. *)
Theorem getChange_clears_removed
    (tr0 tr1 tr2 : t) (s : ServerDetails.t) (slot : ServerDetailsWithPointer) :
  getChange tr0 = (tr1, Some (s, SERVER_REMOVED)) ->
  annotated tr1 tr2 ->
  slotIndex (ServerDetails.serverId s) <> NO_INDEX ->
  serverList tr2 !! Z.to_nat (slotIndex (ServerDetails.serverId s))
    = Some slot ->
  let i := Z.to_nat (slotIndex (ServerDetails.serverId s)) in
  let tr3 := fst (getChange tr2) in
  serverList (clearLastRemoved tr2) !! i = Some blank /\
  (exists slot3,
     serverList tr3 !! i = Some slot3 /\
     pointer slot3 = NULL /\
     (server slot3 = ServerDetails.default \/
      snd (getChange tr2) = Some (server slot3, SERVER_ADDED))) /\
  lastRemovedIndex (clearLastRemoved tr2) = NO_INDEX /\
  log tr3 =
    log tr2 ++
    (if pointer slot =? NULL then []
     else [PointerNotNulled WARNING (slotIndex (ServerDetails.serverId s))
             (ServerId.serverId (ServerDetails.serverId (server slot)))]).
Proof.
  intros Hget Hann Hidx Hl2 i tr3.
  destruct (getChange_removed_fields _ _ _ Hget) as (Hlast & _ & _).
  destruct (annotated_fields _ _ Hann) as (Hlast2 & _ & _ & _).
  rewrite Hlast in Hlast2.
  assert (Hne : lastRemovedIndex tr2 <> NO_INDEX) by congruence.
  rewrite <- Hlast2 in Hl2.
  destruct (clearLastRemoved_pending tr2 i _ Hne Hl2)
    as (Hblank & Hno & _ & Hlog).
  { subst i. rewrite Hlast2. reflexivity. }
  rewrite Hlast2 in Hlog.
  split; [exact Hblank|].
  subst tr3. unfold getChange.
  destruct (changes (clearLastRemoved tr2)) as [|c rest] eqn:Hc; cbn [fst snd].
  - split; [|split; [exact Hno|exact Hlog]].
    exists blank. repeat split; [exact Hblank|]. left. reflexivity.
  - destruct (applyChange_blank (clearLastRemoved tr2) c rest i Hblank)
      as (Hlog' & slot' & Hl' & Hp' & Hs').
    split; [|split; [exact Hno|rewrite Hlog'; exact Hlog]].
    exists slot'. repeat split; [exact Hl'|exact Hp'|].
    destruct Hs' as [Hd|[Hev Hsrv]]; [left; exact Hd|right].
    rewrite Hsrv, Hev. reflexivity.
Qed.

Lemma getChange_clears_removed_witness :
  let tr1 := fst (getChange test_getChange_removing) in
  let tr2 := default tr1 (setPointer tr1 (ServerId.make 2 0) 58) in
  let tr3 := fst (getChange tr2) in
  serverList (clearLastRemoved tr2) !! 2%nat = Some blank /\
  (exists slot3,
     serverList tr3 !! 2%nat = Some slot3 /\
     pointer slot3 = NULL /\
     (server slot3 = ServerDetails.default \/
      snd (getChange tr2) = Some (server slot3, SERVER_ADDED))) /\
  lastRemovedIndex (clearLastRemoved tr2) = NO_INDEX /\
  log tr3 = log tr2 ++ [PointerNotNulled WARNING 2 2].
Proof.
  refine (getChange_clears_removed
            test_getChange_removing
            (fst (getChange test_getChange_removing))
            (default (fst (getChange test_getChange_removing))
               (setPointer (fst (getChange test_getChange_removing))
                  (ServerId.make 2 0) 58))
            (details 2 0)
            (BuildSlot
               (detailsWith 2 0 "Prophylaxis" [ServiceMask.BACKUP_SERVICE]) 58)
            _ _ _ _).
  - reflexivity.
  - apply (annotated_step _ _ (ServerId.make 2 0) 58 _ (annotated_refl _)).
    reflexivity.
  - vm_compute. discriminate.
  - reflexivity.
Defined.

(** The entries [random_with_service] chooses from are the slots that
    are present and offer the requested services. *)
Lemma elem_of_matching tr mask slot :
  slot ∈ matching tr mask <->
  exists i, serverList tr !! i = Some slot /\
            present tr i slot = true /\
            ServiceMask.has (ServerDetails.services (server slot)) mask = true.
Proof.
  unfold matching. rewrite list_elem_of_fmap. split.
  - intros ([i x] & -> & Hin).
    apply list_elem_of_filter in Hin as [HP Hin].
    apply elem_of_lookup_imap in Hin as (j & y & Heq & Hl).
    inversion Heq; subst. cbn [fst snd] in *.
    apply andb_true_iff in HP as [Hp Hh].
    exists j. repeat split; assumption.
  - intros (i & Hl & Hp & Hh). exists (i, slot). split; [reflexivity|].
    apply list_elem_of_filter. split.
    + cbn [fst snd]. rewrite Hp, Hh. reflexivity.
    + apply (elem_of_lookup_imap_2 pair). exact Hl.
Qed.

Lemma present_valid tr i slot :
  present tr i slot = true ->
  ServerId.isValid (ServerDetails.serverId (server slot)) = true.
Proof. unfold present. intros H. apply andb_true_iff in H as [H _]. exact H. Qed.

(** C5.  [getRandomServerIdWithService] is a total function of the
    tracker, the mask and the random draw.  When no present entry offers
    the requested services (so also on an empty tracker, and once every
    matching server has been removed) it returns the invalid id; when
    some present entry does, it returns the id of such an entry. *)
Theorem getRandomServerIdWithService_spec
    (tr : t) (mask : ServiceMask.t) (random : Z) :
  let id := getRandomServerIdWithService tr mask random in
  ((forall i slot,
      serverList tr !! i = Some slot -> present tr i slot = true ->
      ServiceMask.has (ServerDetails.services (server slot)) mask = false) ->
   id = ServerId.default /\ ServerId.isValid id = false) /\
  ((exists i slot,
      serverList tr !! i = Some slot /\ present tr i slot = true /\
      ServiceMask.has (ServerDetails.services (server slot)) mask = true) ->
   exists i slot,
      serverList tr !! i = Some slot /\ present tr i slot = true /\
      ServiceMask.has (ServerDetails.services (server slot)) mask = true /\
      id = ServerDetails.serverId (server slot) /\
      ServerId.isValid id = true).
Proof.
  intros id. subst id. unfold getRandomServerIdWithService. split.
  - intros Hnone.
    destruct (matching tr mask) as [|x l] eqn:Hm; [split; reflexivity|].
    assert (Hx : x ∈ matching tr mask) by (rewrite Hm; left).
    apply elem_of_matching in Hx as (i & Hl & Hp & Hh).
    rewrite (Hnone i x Hl Hp) in Hh. discriminate Hh.
  - intros (i & slot & Hl & Hp & Hh).
    assert (Hin : slot ∈ matching tr mask).
    { apply elem_of_matching. exists i. repeat split; assumption. }
    destruct (matching tr mask) as [|x l] eqn:Hm.
    { inversion Hin. }
    rewrite <- Hm in *. clear Hin.
    assert (Hlen : (0 < length (matching tr mask))%nat).
    { rewrite Hm. cbn. lia. }
    pose proof (Z.mod_pos_bound (uint64 random)
                  (Z.of_nat (length (matching tr mask))) ltac:(lia)) as Hk.
    destruct (lookup_lt_is_Some_2 (matching tr mask)
                (Z.to_nat (uint64 random mod
                             Z.of_nat (length (matching tr mask)))))
      as [chosen Hchosen]; [lia|].
    rewrite Hchosen.
    apply list_elem_of_lookup_2 in Hchosen.
    apply elem_of_matching in Hchosen as (j & Hlj & Hpj & Hhj).
    exists j, chosen. repeat split; try assumption.
    eapply present_valid. exact Hpj.
Qed.

Lemma getRandomServerIdWithService_spec_witness :
  let tr := fst (getChange
    (enqueueChange (create false)
       (detailsWith 0 1 EmptyString [ServiceMask.MASTER_SERVICE])
       SERVER_ADDED)) in
  (getRandomServerIdWithService tr
     (ServiceMask.single ServiceMask.BACKUP_SERVICE) 7 = ServerId.default /\
   ServerId.isValid
     (getRandomServerIdWithService tr
        (ServiceMask.single ServiceMask.BACKUP_SERVICE) 7) = false) /\
  (exists i slot,
     serverList tr !! i = Some slot /\ present tr i slot = true /\
     ServiceMask.has (ServerDetails.services (server slot))
       (ServiceMask.single ServiceMask.MASTER_SERVICE) = true /\
     getRandomServerIdWithService tr
       (ServiceMask.single ServiceMask.MASTER_SERVICE) 7
     = ServerDetails.serverId (server slot) /\
     ServerId.isValid
       (getRandomServerIdWithService tr
          (ServiceMask.single ServiceMask.MASTER_SERVICE) 7) = true).
Proof.
  intros tr. split.
  - apply (getRandomServerIdWithService_spec tr
             (ServiceMask.single ServiceMask.BACKUP_SERVICE) 7).
    intros [|[|i]] slot Hl Hp; vm_compute in Hl; inversion Hl; subst.
    reflexivity.
  - apply (getRandomServerIdWithService_spec tr
             (ServiceMask.single ServiceMask.MASTER_SERVICE) 7).
    exists 0%nat,
      (BuildSlot (detailsWith 0 1 EmptyString [ServiceMask.MASTER_SERVICE])
         NULL).
    repeat split.
Defined.

Lemma getChange_added_fields tr tr1 s :
  getChange tr = (tr1, Some (s, SERVER_ADDED)) ->
  numberOfServers tr1 = uint32 (numberOfServers tr + 1).
Proof.
  unfold getChange.
  destruct (changes (clearLastRemoved tr)) as [|[cs ce] rest] eqn:E;
    intros H; inversion H; subst.
  unfold applyChange. cbn.
  unfold clearLastRemoved.
  destruct (lastRemovedIndex tr =? NO_INDEX); reflexivity.
Qed.

Lemma getChange_none_fields tr tr1 :
  getChange tr = (tr1, None) -> numberOfServers tr1 = numberOfServers tr.
Proof.
  unfold getChange.
  destruct (changes (clearLastRemoved tr)) as [|c rest] eqn:E;
    intros H; inversion H; subst.
  unfold clearLastRemoved.
  destruct (lastRemovedIndex tr =? NO_INDEX); reflexivity.
Qed.

(** With nothing else pending, the change just enqueued is the one the
    next [get_change] hands out. *)
Lemma getChange_enqueueChange tr s ev :
  changes tr = [] ->
  snd (getChange (enqueueChange tr s ev)) = Some (s, ev).
Proof.
  intros Hc. unfold getChange, clearLastRemoved.
  destruct (lastRemovedIndex (enqueueChange tr s ev) =? NO_INDEX);
    cbn; rewrite Hc; reflexivity.
Qed.

(** C6.  Enqueueing an event, [ADDED] or [REMOVED], leaves [size()]
    unchanged; [size()] grows by one when [get_change] hands out an
    [ADDED], shrinks by one when it hands out a [REMOVED], and stays put
    when nothing is pending.  In particular an event enqueued on a
    drained tracker changes [size()] only once it is consumed. *)
Theorem size_reflects_consumption (tr : t) (s : ServerDetails.t) :
  (forall ev, size (enqueueChange tr s ev) = size tr) /\
  (forall tr' s', getChange tr = (tr', Some (s', SERVER_ADDED)) ->
     0 <= size tr < 2 ^ 32 - 1 -> size tr' = size tr + 1) /\
  (forall tr' s', getChange tr = (tr', Some (s', SERVER_REMOVED)) ->
     0 < size tr < 2 ^ 32 -> size tr' = size tr - 1) /\
  (forall tr', getChange tr = (tr', None) -> size tr' = size tr) /\
  (changes tr = [] -> 0 <= size tr < 2 ^ 32 - 1 ->
     snd (getChange (enqueueChange tr s SERVER_ADDED))
       = Some (s, SERVER_ADDED) /\
     size (fst (getChange (enqueueChange tr s SERVER_ADDED))) = size tr + 1) /\
  (changes tr = [] -> 0 < size tr < 2 ^ 32 ->
     snd (getChange (enqueueChange tr s SERVER_REMOVED))
       = Some (s, SERVER_REMOVED) /\
     size (fst (getChange (enqueueChange tr s SERVER_REMOVED)))
       = size tr - 1).
Proof.
  assert (Hadd : forall tr0 tr' s', getChange tr0 = (tr', Some (s', SERVER_ADDED)) ->
            0 <= size tr0 < 2 ^ 32 - 1 -> size tr' = size tr0 + 1).
  { intros tr0 tr' s' H Hr. unfold size in *.
    rewrite (getChange_added_fields _ _ _ H).
    apply ServerIdFacts.uint32_small. lia. }
  assert (Hrem : forall tr0 tr' s', getChange tr0 = (tr', Some (s', SERVER_REMOVED)) ->
            0 < size tr0 < 2 ^ 32 -> size tr' = size tr0 - 1).
  { intros tr0 tr' s' H Hr. unfold size in *.
    destruct (getChange_removed_fields _ _ _ H) as (_ & _ & Hn).
    rewrite Hn. apply ServerIdFacts.uint32_small. lia. }
  split; [intros ev; reflexivity|].
  split; [apply Hadd|].
  split; [apply Hrem|].
  split; [intros tr' H; apply (getChange_none_fields _ _ H)|].
  split.
  - intros Hc Hr.
    pose proof (getChange_enqueueChange tr s SERVER_ADDED Hc) as Hs.
    split; [exact Hs|].
    destruct (getChange (enqueueChange tr s SERVER_ADDED)) as [tr' o] eqn:E.
    cbn [fst snd] in *. subst o. apply (Hadd _ _ _ E). exact Hr.
  - intros Hc Hr.
    pose proof (getChange_enqueueChange tr s SERVER_REMOVED Hc) as Hs.
    split; [exact Hs|].
    destruct (getChange (enqueueChange tr s SERVER_REMOVED)) as [tr' o] eqn:E.
    cbn [fst snd] in *. subst o. apply (Hrem _ _ _ E). exact Hr.
Qed.

Lemma size_reflects_consumption_witness :
  let tr :=
    fst (getChange (enqueueChange (create false) (details 0 0) SERVER_ADDED)) in
  size tr = 1 /\
  size (enqueueChange tr (details 1 0) SERVER_ADDED) = 1 /\
  size (fst (getChange (enqueueChange tr (details 1 0) SERVER_ADDED))) = 1 + 1 /\
  size (enqueueChange tr (details 0 0) SERVER_REMOVED) = 1 /\
  size (fst (getChange (enqueueChange tr (details 0 0) SERVER_REMOVED))) = 1 - 1.
Proof.
  intros tr.
  destruct (size_reflects_consumption tr (details 1 0))
    as (Henq1 & _ & _ & _ & Hadd & _).
  destruct (size_reflects_consumption tr (details 0 0))
    as (Henq0 & _ & _ & _ & _ & Hrem).
  split; [reflexivity|].
  split; [apply Henq1|].
  split; [apply Hadd; [reflexivity|vm_compute; split; [discriminate|reflexivity]]|].
  split; [apply Henq0|].
  apply Hrem; [reflexivity|vm_compute; split; reflexivity].
Defined.

End ServerTrackerFacts.

(** ** The failure detector *)

Module FailureDetectorFacts.

Import FailureDetector ServiceMask.

Section StaleServerList.

Variable toNanoseconds : Z -> Z.
Variable STALE_SERVER_LIST_USECS : Z.

Abbreviation checkStale :=
  (checkForStaleServerList toNanoseconds STALE_SERVER_LIST_USECS).
Abbreviation checksStale :=
  (staleChecks toNanoseconds STALE_SERVER_LIST_USECS).

(** Without suspicion a check does nothing. *)
Lemma checkForStaleServerList_idle w d :
  staleServerListSuspected d = false ->
  checkStale w d = (Returned tt, d, [TestLog NothingToDo]).
Proof.
  intros H. unfold checkForStaleServerList, bind, get, emit. cbn.
  rewrite H. reflexivity.
Qed.

(** With suspicion, once the local version has passed the recorded one
    a check only drops the suspicion. *)
Lemma checkForStaleServerList_advanced w d :
  staleServerListSuspected d = true ->
  staleServerListVersion d < serverList_getVersion w ->
  checkStale w d =
    (Returned tt,
     {| ourServerId := ourServerId d;
        staleServerListSuspected := false;
        staleServerListVersion := staleServerListVersion d;
        staleServerListTimestamp := staleServerListTimestamp d |},
     [TestLog VersionAdvanced]).
Proof.
  intros Hs Hv.
  unfold checkForStaleServerList, setStaleServerListSuspected,
    bind, get, put, ask, emit.
  cbn. rewrite Hs. cbn.
  destruct (Z.gtb_spec (serverList_getVersion w) (staleServerListVersion d));
    [reflexivity|lia].
Qed.

(** With suspicion, the version not advanced and the timeout not yet
    reached, a check does nothing at all. *)
Lemma checkForStaleServerList_waiting w d :
  staleServerListSuspected d = true ->
  serverList_getVersion w <= staleServerListVersion d ->
  toNanoseconds (uint64 (Cycles_rdtsc w - staleServerListTimestamp d))
    < STALE_SERVER_LIST_USECS * 1000 ->
  checkStale w d = (Returned tt, d, []).
Proof.
  intros Hs Hv Ht.
  unfold checkForStaleServerList, bind, get, ask, ret.
  cbn. rewrite Hs. cbn.
  destruct (Z.gtb_spec (serverList_getVersion w) (staleServerListVersion d));
    [lia|].
  destruct (Z.geb_spec
    (toNanoseconds (uint64 (Cycles_rdtsc w - staleServerListTimestamp d)))
    (STALE_SERVER_LIST_USECS * 1000)); [lia|reflexivity].
Qed.

(** With suspicion, the version not advanced and the timeout reached,
    the request goes out and the run ends the way the coordinator's
    answer dictates. *)
Lemma checkForStaleServerList_request w d :
  staleServerListSuspected d = true ->
  serverList_getVersion w <= staleServerListVersion d ->
  STALE_SERVER_LIST_USECS * 1000
    <= toNanoseconds (uint64 (Cycles_rdtsc w - staleServerListTimestamp d)) ->
  let warning :=
    Log WARNING
      (StaleServerListDetected (serverList_getVersion w)
         (staleServerListVersion d)
         (toNanoseconds
            (uint64 (Cycles_rdtsc w - staleServerListTimestamp d)) / 1000)) in
  let request := RequestServerList (ourServerId d) in
  checkStale w d =
    match coordinatorClient_requestServerList w (ourServerId d) with
    | Returned _ =>
        (Returned tt,
         {| ourServerId := ourServerId d;
            staleServerListSuspected := false;
            staleServerListVersion := staleServerListVersion d;
            staleServerListTimestamp := staleServerListTimestamp d |},
         [warning; request])
    | Thrown TransportException =>
        (Returned tt, d,
         [warning; request; Log WARNING RequestToCoordinatorFailed])
    | Thrown e => (Thrown e, d, [warning; request])
    | Aborted => (Aborted, d, [warning; request])
    end.
Proof.
  intros Hs Hv Ht.
  unfold checkForStaleServerList, setStaleServerListSuspected, try_catch,
    call, bind, get, put, ask, emit, ret.
  cbn. rewrite Hs. cbn.
  destruct (Z.gtb_spec (serverList_getVersion w) (staleServerListVersion d));
    [lia|].
  destruct (Z.geb_spec
    (toNanoseconds (uint64 (Cycles_rdtsc w - staleServerListTimestamp d)))
    (STALE_SERVER_LIST_USECS * 1000)); [|lia].
  destruct (coordinatorClient_requestServerList w (ourServerId d))
    as [[]|[]|]; reflexivity.
Qed.


(** C1, amended.  With suspicion, the local version not advanced past
    the recorded one and the stale timeout elapsed, a check sends
    exactly one server-list request to the coordinator, for this
    server, after the warning that the list looks stale.  If the
    coordinator call returns, the suspicion is dropped and nothing more
    is logged.  If it raises a transport error, the error is swallowed
    with a warning: the check returns normally, the warning that the
    request failed is logged after the request, and the detector is
    left as it was, still suspecting, so the next round asks again. *)
Theorem checkForStaleServerList_timeout (w : World) (d : FailureDetector.t) :
  staleServerListSuspected d = true ->
  serverList_getVersion w <= staleServerListVersion d ->
  STALE_SERVER_LIST_USECS * 1000
    <= toNanoseconds (uint64 (Cycles_rdtsc w - staleServerListTimestamp d)) ->
  let r := checkStale w d in
  let stale :=
    Log WARNING
      (StaleServerListDetected (serverList_getVersion w)
         (staleServerListVersion d)
         (toNanoseconds
            (uint64 (Cycles_rdtsc w - staleServerListTimestamp d)) / 1000)) in
  let request := RequestServerList (ourServerId d) in
  requestsSent (eventsOf r) = [ourServerId d] /\
  (coordinatorClient_requestServerList w (ourServerId d) = Returned tt ->
     outcomeOf r = Returned tt /\
     staleServerListSuspected (detectorOf r) = false /\
     eventsOf r = [stale; request]) /\
  (coordinatorClient_requestServerList w (ourServerId d)
     = Thrown TransportException ->
     outcomeOf r = Returned tt /\
     staleServerListSuspected (detectorOf r) = true /\
     detectorOf r = d /\
     eventsOf r = [stale; request; Log WARNING RequestToCoordinatorFailed]).
Proof.
  intros Hs Hv Ht r stale request. subst r stale request.
  rewrite (checkForStaleServerList_request w d Hs Hv Ht).
  destruct (coordinatorClient_requestServerList w (ourServerId d))
    as [[]|[]|]; cbn; (split; [reflexivity|]);
    split; intros H; try discriminate H; repeat split; assumption.
Qed.



(** A ping answer that reports a newer version than the local one
    starts the suspicion, recording the local version and the time. *)
Lemma checkServerListVersion_suspects observed w d :
  staleServerListSuspected d = false ->
  serverList_getVersion w < observed ->
  checkServerListVersion observed w d =
    (Returned tt,
     {| ourServerId := ourServerId d;
        staleServerListSuspected := true;
        staleServerListVersion := serverList_getVersion w;
        staleServerListTimestamp := Cycles_rdtsc w |},
     []).
Proof.
  intros Hs Hv. unfold checkServerListVersion, bind, get, put, ask, ret.
  cbn. rewrite Hs. cbn.
  destruct (Z.leb_spec observed (serverList_getVersion w)); [lia|reflexivity].
Qed.


End StaleServerList.

Section Ping.

Variable TIMEOUT_USECS : Z.

Abbreviation pingRandom := (pingRandomServer TIMEOUT_USECS).

(** Reporting a suspected-down server, for a valid id. *)
Lemma alertCoordinator_valid id locator w d :
  ServerId.isValid id = true ->
  let warning := Log WARNING (PingTimeout (ServerId.serverId id) locator) in
  alertCoordinator id locator w d =
    match coordinatorClient_hintServerDown w id with
    | Returned _ => (Returned tt, d, [warning; HintServerDown id])
    | Thrown TransportException =>
        (Returned tt, d,
         [warning; HintServerDown id; Log WARNING HintServerDownFailed])
    | Thrown e => (Thrown e, d, [warning; HintServerDown id])
    | Aborted => (Aborted, d, [warning; HintServerDown id])
    end.
Proof.
  intros Hv.
  unfold alertCoordinator, assertSome, try_catch, call, bind, ask, emit,
    ServerId.deref, ServerId.getId.
  rewrite Hv. cbn.
  destruct (coordinatorClient_hintServerDown w id) as [[]|[]|]; reflexivity.
Qed.

(** Comparing versions after a successful ping never fails and talks to
    nobody. *)
Lemma checkServerListVersion_quiet v w d :
  exists d', checkServerListVersion v w d = (Returned tt, d', []).
Proof.
  unfold checkServerListVersion, bind, get, put, ask, ret. cbn.
  destruct (staleServerListSuspected d); cbn; [eauto|].
  destruct (v <=? serverList_getVersion w); cbn; eauto.
Qed.

(** One round of pinging, for a valid peer other than this server,
    case by case on what the outside answers. *)
Lemma pingRandomServer_cases (w : World) (d : FailureDetector.t) :
  let pingee := serverTracker_getRandomServerIdWithService w PING_SERVICE in
  ServerId.isValid pingee = true ->
  ServerId.eqb pingee (ourServerId d) = false ->
  pingRandom w d =
    match serverList_getLocator w pingee with
    | None =>
        (Returned tt, d,
         [Log NOTICE (StaleId EmptyString (ServerId.serverId pingee))])
    | Some locator =>
        let ping := Ping locator (generateRandom w) (TIMEOUT_USECS * 1000) in
        match pingClient_ping w locator (generateRandom w)
                (TIMEOUT_USECS * 1000) with
        | Returned v =>
            (Returned tt, detectorOf (checkServerListVersion v w d),
             [ping; TestLog (PingSucceeded locator)])
        | Thrown ServerListException =>
            (Returned tt, d,
             [ping; Log NOTICE (StaleId locator (ServerId.serverId pingee))])
        | Thrown TimeoutException | Thrown TransportException =>
            (outcomeOf (alertCoordinator pingee locator w d), d,
             ping :: eventsOf (alertCoordinator pingee locator w d))
        | Thrown OtherException => (Thrown OtherException, d, [ping])
        | Aborted => (Aborted, d, [ping])
        end
    end.
Proof.
  intros pingee Hvalid Hself.
  unfold pingRandomServer.
  unfold bind at 1. unfold ask at 1. unfold bind at 1. unfold get at 1.
  cbn beta iota zeta. fold pingee. rewrite Hvalid, Hself. cbn [negb orb].
  destruct (serverList_getLocator w pingee) as [locator|].
  - unfold try_catch, bind, call, emit. cbn beta iota zeta.
    destruct (pingClient_ping w locator (generateRandom w)
                (TIMEOUT_USECS * 1000)) as [v|[]|]; cbn [pingCatch].
    + destruct (checkServerListVersion_quiet v w d) as [d' Hc].
      rewrite Hc. reflexivity.
    + unfold assertSome, bind, emit, ServerId.deref, ServerId.getId.
      fold pingee. rewrite Hvalid. reflexivity.
    + rewrite (alertCoordinator_valid pingee locator w d Hvalid).
      destruct (coordinatorClient_hintServerDown w pingee) as [[]|[]|];
        reflexivity.
    + rewrite (alertCoordinator_valid pingee locator w d Hvalid).
      destruct (coordinatorClient_hintServerDown w pingee) as [[]|[]|];
        reflexivity.
    + reflexivity.
    + reflexivity.
  - unfold try_catch, throw, pingCatch, assertSome, bind, emit,
      ServerId.deref, ServerId.getId.
    fold pingee. rewrite Hvalid. reflexivity.
Qed.

(** C2.  When [pingRandomServer] has selected a valid peer other than
    this server: a down-hint for that peer goes to the coordinator if
    and only if the ping raised a timeout or a transport error, and no
    hint otherwise; a transport error raised by the hint is swallowed,
    the method returning normally; and when the peer's id is stale (the
    locator lookup raises [ServerListException]) the round is skipped:
    no ping, no hint, one notice in the log. *)
Theorem pingRandomServer_hint (w : World) (d : FailureDetector.t) :
  let pingee := serverTracker_getRandomServerIdWithService w PING_SERVICE in
  ServerId.isValid pingee = true ->
  ServerId.eqb pingee (ourServerId d) = false ->
  let r := pingRandom w d in
  let pingFailed :=
    exists locator,
      serverList_getLocator w pingee = Some locator /\
      (pingClient_ping w locator (generateRandom w) (TIMEOUT_USECS * 1000)
         = Thrown TimeoutException \/
       pingClient_ping w locator (generateRandom w) (TIMEOUT_USECS * 1000)
         = Thrown TransportException) in
  (hintsSent (eventsOf r) = [pingee] <-> pingFailed) /\
  (hintsSent (eventsOf r) = [] <-> ~ pingFailed) /\
  (pingFailed ->
   coordinatorClient_hintServerDown w pingee = Thrown TransportException ->
   outcomeOf r = Returned tt) /\
  (serverList_getLocator w pingee = None ->
   outcomeOf r = Returned tt /\ detectorOf r = d /\
   eventsOf r = [Log NOTICE (StaleId EmptyString (ServerId.serverId pingee))]).
Proof.
  intros pingee Hvalid Hself r pingFailed. subst r.
  rewrite (pingRandomServer_cases w d Hvalid Hself). fold pingee.
  destruct (serverList_getLocator w pingee) as [locator|] eqn:Hloc.
  - assert (HP : pingFailed <->
        pingClient_ping w locator (generateRandom w) (TIMEOUT_USECS * 1000)
          = Thrown TimeoutException \/
        pingClient_ping w locator (generateRandom w) (TIMEOUT_USECS * 1000)
          = Thrown TransportException).
    { subst pingFailed. split.
      - intros (l & Hl & H). inversion Hl; subst l. exact H.
      - intros H. exists locator. split; [reflexivity|exact H]. }
    clearbody pingFailed.
    destruct (pingClient_ping w locator (generateRandom w)
                (TIMEOUT_USECS * 1000)) as [v|[]|];
      try rewrite (alertCoordinator_valid pingee locator w d Hvalid);
      try destruct (coordinatorClient_hintServerDown w pingee) as [[]|[]|];
      cbn;
      intuition (discriminate || congruence).
  - assert (HP : ~ pingFailed).
    { subst pingFailed. intros (l & Hl & _). discriminate Hl. }
    clearbody pingFailed. cbn.
    intuition (discriminate || congruence).
Qed.

End Ping.

Import Fixtures.

(** C1, as the claim states it: the suspicion would be dropped whether
    the coordinator call succeeds or raises a transport error.  When the
    call raises, the assignment that follows it in the [try] block is
    skipped and the detector keeps suspecting. *)
Lemma checkForStaleServerList_regardless_counterexample :
  ~ (forall toNanoseconds STALE_SERVER_LIST_USECS w d,
       staleServerListSuspected d = true ->
       serverList_getVersion w <= staleServerListVersion d ->
       STALE_SERVER_LIST_USECS * 1000
         <= toNanoseconds
              (uint64 (Cycles_rdtsc w - staleServerListTimestamp d)) ->
       let r :=
         checkForStaleServerList toNanoseconds STALE_SERVER_LIST_USECS w d in
       requestsSent (eventsOf r) = [ourServerId d] /\
       staleServerListSuspected (detectorOf r) = false).
Proof.
  intros H.
  destruct (H nanosecondTicks 500000 unreachable suspecting) as [_ Hflag].
  - reflexivity.
  - vm_compute. discriminate.
  - vm_compute. discriminate.
  - vm_compute in Hflag. discriminate Hflag.
Qed.

Lemma checkForStaleServerList_timeout_witness :
  let r := checkForStaleServerList nanosecondTicks 500000 unreachable suspecting in
  let stale := Log WARNING (StaleServerListDetected 7 7 600000) in
  let request := RequestServerList (ServerId.make 1 0) in
  requestsSent (eventsOf r) = [ServerId.make 1 0] /\
  (coordinatorClient_requestServerList unreachable (ServerId.make 1 0)
     = Returned tt ->
     outcomeOf r = Returned tt /\
     staleServerListSuspected (detectorOf r) = false /\
     eventsOf r = [stale; request]) /\
  (coordinatorClient_requestServerList unreachable (ServerId.make 1 0)
     = Thrown TransportException ->
     outcomeOf r = Returned tt /\
     staleServerListSuspected (detectorOf r) = true /\
     detectorOf r = suspecting /\
     eventsOf r = [stale; request; Log WARNING RequestToCoordinatorFailed]).
Proof.
  apply (checkForStaleServerList_timeout nanosecondTicks 500000
           unreachable suspecting).
  - reflexivity.
  - vm_compute. discriminate.
  - vm_compute. discriminate.
Defined.

(** Scenario "stale directory": a ping reports version 10 while the
    local list is at 7; the detector starts suspecting.  If the local
    version reaches 11 within the timeout no request is sent; if it
    stays at 7 past the timeout exactly one request is sent. *)
Example scenario_stale_directory :
  let d0 := FailureDetector.create (ServerId.make 1 0) in
  let d1 := detectorOf (checkServerListVersion 10 stillWaiting d0) in
  d1 = {| ourServerId := ServerId.make 1 0;
          staleServerListSuspected := true;
          staleServerListVersion := 7;
          staleServerListTimestamp := 100 |} /\
  requestsSent
    (eventsOf (staleChecks nanosecondTicks 500000
                 [stillWaiting; caughtUp; unreachable] d1)) = [] /\
  requestsSent
    (eventsOf (checkForStaleServerList nanosecondTicks 500000 unreachable d1))
    = [ServerId.make 1 0].
Proof. vm_compute. repeat split. Qed.


Lemma pingRandomServer_hint_witness :
  let r := pingRandomServer 50000 unreachable suspecting in
  hintsSent (eventsOf r) = [ServerId.make 2 1] /\
  outcomeOf r = Returned tt.
Proof.
  destruct (pingRandomServer_hint 50000 unreachable suspecting
              eq_refl eq_refl) as (Hiff & _ & Hswallow & _).
  assert (Hfailed : exists locator,
    serverList_getLocator unreachable (ServerId.make 2 1) = Some locator /\
    (pingClient_ping unreachable locator (generateRandom unreachable)
       (50000 * 1000) = Thrown TimeoutException \/
     pingClient_ping unreachable locator (generateRandom unreachable)
       (50000 * 1000) = Thrown TransportException)).
  { exists "mock:host=peer"%string. split; [reflexivity|]. left. reflexivity. }
  split.
  - apply Hiff. exact Hfailed.
  - apply Hswallow; [exact Hfailed|reflexivity].
Defined.

End FailureDetectorFacts.

(** ** ServerId: further properties *)

Module ServerIdMoreFacts.

Import ServerId ServerIdFacts.

(** A 64-bit value is its upper half times [2^32] plus its lower half. *)
Lemma halves_recompose (v : Z) :
  0 <= v < 2 ^ 64 ->
  0 <= Z.shiftr v 32 < 2 ^ 32 /\
  0 <= Z.land v 0xffffffff < 2 ^ 32 /\
  v = Z.shiftr v 32 * 2 ^ 32 + Z.land v 0xffffffff.
Proof.
  intros Hv.
  rewrite Z.shiftr_div_pow2 by lia.
  change 0xffffffff with (Z.ones 32). rewrite Z.land_ones by lia.
  pose proof (Z.div_mod v (2 ^ 32) ltac:(lia)) as Hdm.
  pose proof (Z.mod_pos_bound v (2 ^ 32) ltac:(lia)) as Hm.
  assert (0 <= v / 2 ^ 32 < 2 ^ 32).
  { split; [apply Z.div_pos; lia|].
    apply Z.div_lt_upper_bound; lia. }
  repeat split; lia.
Qed.

(** X1.  On constructed ids with a valid generation, [operator==] is
    equality of the (index, generation) pairs: distinct pairs never
    collide in the 64-bit encoding. *)
Theorem make_eqb_pairs (i g i' g' : Z) :
  0 <= i < 2 ^ 32 -> 0 <= g < 2 ^ 32 - 1 ->
  0 <= i' < 2 ^ 32 -> 0 <= g' < 2 ^ 32 ->
  (eqb (make i g) (make i' g') = true <-> i = i' /\ g = g').
Proof.
  intros Hi Hg Hi' Hg'. split.
  - intros Heq.
    assert (Hv : isValid (make i g) = true).
    { rewrite make_isValid by lia.
      destruct (Z.eqb_spec g 0xFFFFFFFF); [lia|reflexivity]. }
    apply (eqb_valid _ _ Hv) in Heq.
    pose proof (make_index_bits i g Hi ltac:(lia)) as Hib.
    pose proof (make_generation i g Hi ltac:(lia)) as Hgb.
    rewrite Heq in Hib, Hgb.
    rewrite make_index_bits in Hib by lia.
    rewrite make_generation in Hgb by lia.
    split; congruence.
  - intros [-> ->]. apply eqb_refl.
Qed.

Lemma make_eqb_pairs_witness :
  eqb (make 3 7) (make 3 8) = true <-> 3 = 3 /\ 7 = 8.
Proof. apply (make_eqb_pairs 3 7 3 8); lia. Defined.

(** X2.  A valid id is rebuilt from its two accessors: [indexNumber]
    and [generationNumber] succeed, return 32-bit values, and
    [ServerId(indexNumber, generationNumber)] is the id itself. *)
Theorem make_of_accessors (x : t) :
  wf x -> isValid x = true ->
  exists i g,
    indexNumber x = Some i /\ generationNumber x = Some g /\
    0 <= i < 2 ^ 32 /\ 0 <= g < 2 ^ 32 - 1 /\
    make i g = x.
Proof.
  intros Hwf Hvalid.
  destruct (halves_recompose (serverId x) Hwf) as (Hg & Hi & Hsum).
  exists (Z.land (serverId x) 0xffffffff), (Z.shiftr (serverId x) 32).
  unfold indexNumber, generationNumber. rewrite Hvalid.
  rewrite (uint32_small _ Hi).
  assert (Hgne : Z.shiftr (serverId x) 32 <> 0xFFFFFFFF).
  { unfold isValid, _generationNumber in Hvalid.
    destruct (Z.eqb_spec (Z.shiftr (serverId x) 32)
                INVALID_SERVERID_GENERATION_NUMBER) as [|Hne];
      [discriminate Hvalid|exact Hne]. }
  repeat split; try lia.
  apply serverId_inj.
  rewrite make_serverId, lor_shiftl_add by lia.
  symmetry. exact Hsum.
Qed.

Lemma make_of_accessors_witness :
  exists i g,
    indexNumber (fromId 0x500000002) = Some i /\
    generationNumber (fromId 0x500000002) = Some g /\
    0 <= i < 2 ^ 32 /\ 0 <= g < 2 ^ 32 - 1 /\
    make i g = fromId 0x500000002.
Proof.
  apply (make_of_accessors (fromId 0x500000002)).
  - unfold wf. vm_compute. split; [discriminate|reflexivity].
  - reflexivity.
Defined.

(** X3.  Comparing an id with the default-constructed one tests for
    invalidity; ids that compare equal are both valid or both invalid;
    and a valid id never equals an invalid one. *)
Theorem eqb_validity (a b : t) :
  eqb a default = negb (isValid a) /\
  (eqb a b = true -> isValid a = isValid b) /\
  (isValid a = true -> isValid b = false -> eqb a b = false).
Proof.
  assert (Hsame : forall x y, eqb x y = true -> isValid x = isValid y).
  { intros x y Heq. destruct (isValid x) eqn:Hx.
    - apply (eqb_valid _ _ Hx) in Heq. subst y. symmetry. exact Hx.
    - destruct (isValid y) eqn:Hy; [|reflexivity].
      rewrite eqb_sym in Heq. apply (eqb_valid _ _ Hy) in Heq. subst y.
      congruence. }
  split; [|split].
  - destruct (isValid a) eqn:Ha.
    + cbn. destruct (eqb a default) eqn:He; [|reflexivity].
      apply Hsame in He. rewrite Ha in He. discriminate He.
    + unfold eqb. rewrite Ha. reflexivity.
  - apply Hsame.
  - intros Ha Hb. destruct (eqb a b) eqn:He; [|reflexivity].
    apply Hsame in He. congruence.
Qed.

Lemma eqb_validity_witness :
  eqb (make 1 4) default = negb (isValid (make 1 4)) /\
  (eqb (make 1 4) (make 1 4) = true ->
   isValid (make 1 4) = isValid (make 1 4)) /\
  (isValid (make 1 4) = true -> isValid (make 1 0xFFFFFFFF) = false ->
   eqb (make 1 4) (make 1 0xFFFFFFFF) = false).
Proof.
  destruct (eqb_validity (make 1 4) (make 1 4)) as (Hdef & Hsame & _).
  destruct (eqb_validity (make 1 4) (make 1 0xFFFFFFFF)) as (_ & _ & Hmixed).
  split; [exact Hdef|]. split; [exact Hsame|exact Hmixed].
Defined.

End ServerIdMoreFacts.

(** ** The failure detector: further properties *)

Module FailureDetectorMoreFacts.

Import FailureDetector ServiceMask FailureDetectorFacts FailureDetectorThread.
Import Fixtures.

(** When the tracker offers nobody, or this server itself, the round is
    skipped. *)
Lemma pingRandomServer_skips TIMEOUT_USECS (w : World) (d : FailureDetector.t) :
  negb (ServerId.isValid
          (serverTracker_getRandomServerIdWithService w PING_SERVICE))
  || ServerId.eqb (serverTracker_getRandomServerIdWithService w PING_SERVICE)
       (ourServerId d) = true ->
  pingRandomServer TIMEOUT_USECS w d = (Returned tt, d, []).
Proof.
  intros H. unfold pingRandomServer.
  unfold bind at 1. unfold ask at 1. unfold bind at 1. unfold get at 1.
  cbn beta iota zeta. rewrite H. reflexivity.
Qed.

(** What comparing versions may do to the detector. *)
Lemma checkServerListVersion_detector v w d :
  detectorOf (checkServerListVersion v w d) =
    if staleServerListSuspected d then d
    else if v <=? serverList_getVersion w then d
    else {| ourServerId := ourServerId d;
            staleServerListSuspected := true;
            staleServerListVersion := serverList_getVersion w;
            staleServerListTimestamp := Cycles_rdtsc w |}.
Proof.
  unfold checkServerListVersion, bind, get, put, ask, ret. cbn.
  destruct (staleServerListSuspected d); cbn; [reflexivity|].
  destruct (v <=? serverList_getVersion w); reflexivity.
Qed.

(** Case analysis of one ping round: skipped, stale id, or the ping's
    outcome and, after a failed ping, the hint's. *)
Ltac ping_round TIMEOUT w d :=
  let Hskip := fresh "Hskip" in
  let Hvalid := fresh "Hvalid" in
  let Hself := fresh "Hself" in
  let Hloc := fresh "Hloc" in
  let Hping := fresh "Hping" in
  let Hhint := fresh "Hhint" in
  let locator := fresh "locator" in
  destruct (negb (ServerId.isValid
                    (serverTracker_getRandomServerIdWithService w PING_SERVICE))
            || ServerId.eqb
                 (serverTracker_getRandomServerIdWithService w PING_SERVICE)
                 (ourServerId d)) eqn:Hskip;
  [ rewrite (pingRandomServer_skips TIMEOUT w d Hskip)
  | apply orb_false_iff in Hskip as [Hvalid Hself];
    apply negb_false_iff in Hvalid;
    rewrite (pingRandomServer_cases TIMEOUT w d Hvalid Hself);
    destruct (serverList_getLocator w
                (serverTracker_getRandomServerIdWithService w PING_SERVICE))
      as [locator|] eqn:Hloc;
    [ destruct (pingClient_ping w locator (generateRandom w)
                  (TIMEOUT * 1000)) as [?v|[]|] eqn:Hping;
      try (rewrite (alertCoordinator_valid _ locator w d Hvalid);
           destruct (coordinatorClient_hintServerDown w
                       (serverTracker_getRandomServerIdWithService w
                          PING_SERVICE)) as [[]|[]|] eqn:Hhint)
    | ] ];
  cbn [outcomeOf detectorOf eventsOf fst snd
       requestsSent hintsSent pingsSent omap list_omap length].

(** What the loop needs to know about a ping round. *)
Lemma pingRandomServer_counts TIMEOUT_USECS w d :
  let r := pingRandomServer TIMEOUT_USECS w d in
  requestsSent (eventsOf r) = [] /\
  (length (hintsSent (eventsOf r)) <= length (pingsSent (eventsOf r)) <= 1)%nat /\
  outcomeOf r <> Thrown TransportException /\
  ourServerId (detectorOf r) = ourServerId d.
Proof.
  intros r. subst r. ping_round TIMEOUT_USECS w d;
    try rewrite checkServerListVersion_detector;
    repeat match goal with
           | |- context [if ?b then _ else _] => destruct b
           end;
    cbn; repeat split; try lia; try discriminate.
Qed.

(** What the loop needs to know about a stale-list check. *)
Lemma checkForStaleServerList_counts toNanoseconds STALE_SERVER_LIST_USECS w d :
  let r := checkForStaleServerList toNanoseconds STALE_SERVER_LIST_USECS w d in
  pingsSent (eventsOf r) = [] /\
  hintsSent (eventsOf r) = [] /\
  (length (requestsSent (eventsOf r)) <= 1)%nat /\
  outcomeOf r <> Thrown TransportException /\
  ourServerId (detectorOf r) = ourServerId d.
Proof.
  intros r. subst r.
  destruct (staleServerListSuspected d) eqn:Hs.
  2: { rewrite (checkForStaleServerList_idle _ _ w d Hs). cbn.
       repeat split; try lia; discriminate. }
  destruct (Z.lt_ge_cases (staleServerListVersion d) (serverList_getVersion w))
    as [Hv|Hv].
  { rewrite (checkForStaleServerList_advanced _ _ w d Hs Hv). cbn.
    repeat split; try lia; discriminate. }
  destruct (Z.lt_ge_cases
    (toNanoseconds (uint64 (Cycles_rdtsc w - staleServerListTimestamp d)))
    (STALE_SERVER_LIST_USECS * 1000)) as [Ht|Ht].
  { rewrite (checkForStaleServerList_waiting _ _ w d Hs Hv Ht). cbn.
    repeat split; try lia; discriminate. }
  rewrite (checkForStaleServerList_request _ _ w d Hs Hv Ht).
  destruct (coordinatorClient_requestServerList w (ourServerId d))
    as [[]|[]|]; cbn; repeat split; try lia; discriminate.
Qed.

(** X4.  What a ping round does to the detector is settled by one
    condition: the detector was not suspecting and the server picked, a
    valid one other than this server whose locator is known, answered
    the ping with a server-list version above the local one.  When the
    condition holds the round returns and the detector starts
    suspecting, recording the local version and the current time.  When
    it does not hold, and in particular while a suspicion is pending,
    the detector is left as it was, so later answers never postpone the
    stale timeout. *)
Theorem pingRandomServer_state_change
    TIMEOUT_USECS (w : World) (d : FailureDetector.t) :
  let pingee := serverTracker_getRandomServerIdWithService w PING_SERVICE in
  let r := pingRandomServer TIMEOUT_USECS w d in
  let newerSeen :=
    staleServerListSuspected d = false /\
    exists locator v,
      ServerId.isValid pingee = true /\
      ServerId.eqb pingee (ourServerId d) = false /\
      serverList_getLocator w pingee = Some locator /\
      pingClient_ping w locator (generateRandom w) (TIMEOUT_USECS * 1000)
        = Returned v /\
      serverList_getVersion w < v in
  (newerSeen ->
     outcomeOf r = Returned tt /\
     detectorOf r =
       {| ourServerId := ourServerId d;
          staleServerListSuspected := true;
          staleServerListVersion := serverList_getVersion w;
          staleServerListTimestamp := Cycles_rdtsc w |}) /\
  (~ newerSeen -> detectorOf r = d) /\
  (staleServerListSuspected d = true -> detectorOf r = d).
Proof.
  intros pingee r newerSeen. subst pingee r newerSeen.
  split; [|split].
  - intros (Hs & locator & v & Hvalid & Hself & Hloc & Hping & Hlt).
    rewrite (FailureDetectorFacts.pingRandomServer_cases
               TIMEOUT_USECS w d Hvalid Hself).
    rewrite Hloc, Hping.
    cbn [outcomeOf detectorOf fst snd].
    rewrite checkServerListVersion_detector, Hs.
    destruct (Z.leb_spec v (serverList_getVersion w)); [lia|].
    split; reflexivity.
  - intros Hnot.
    ping_round TIMEOUT_USECS w d; try reflexivity.
    rewrite checkServerListVersion_detector.
    destruct (staleServerListSuspected d) eqn:Hs; [reflexivity|].
    destruct (Z.leb_spec v (serverList_getVersion w)); [reflexivity|].
    exfalso. apply Hnot. split; [reflexivity|].
    exists locator, v. repeat split; assumption.
  - intros Hs.
    ping_round TIMEOUT_USECS w d; try reflexivity.
    rewrite checkServerListVersion_detector, Hs. reflexivity.
Qed.

Lemma pingRandomServer_state_change_witness :
  let d := FailureDetector.create (ServerId.make 1 0) in
  let r := pingRandomServer 50000 stillWaiting d in
  outcomeOf r = Returned tt /\
  detectorOf r =
    {| ourServerId := ServerId.make 1 0;
       staleServerListSuspected := true;
       staleServerListVersion := 7;
       staleServerListTimestamp := 100 |}.
Proof.
  intros d r.
  destruct (pingRandomServer_state_change 50000 stillWaiting d)
    as [Hstarts _].
  apply Hstarts. split; [reflexivity|].
  exists "mock:host=peer"%string, 10.
  repeat split.
Defined.

(** X5.  A ping round never asks the coordinator for the server list
    and never lets a transport error escape.  When the tracker offers
    no valid server, or this server itself, it does nothing at all.
    Otherwise it sends at most one ping, to the locator of the chosen
    server with the drawn nonce and the probe timeout in nanoseconds,
    and at most one down-hint, which names the chosen server and comes
    only after that ping. *)
Theorem pingRandomServer_traffic
    TIMEOUT_USECS (w : World) (d : FailureDetector.t) :
  let pingee := serverTracker_getRandomServerIdWithService w PING_SERVICE in
  let r := pingRandomServer TIMEOUT_USECS w d in
  requestsSent (eventsOf r) = [] /\
  outcomeOf r <> Thrown TransportException /\
  (negb (ServerId.isValid pingee) || ServerId.eqb pingee (ourServerId d) = true ->
   r = (Returned tt, d, [])) /\
  (pingsSent (eventsOf r) = [] /\ hintsSent (eventsOf r) = [] \/
   exists locator,
     serverList_getLocator w pingee = Some locator /\
     head (eventsOf r)
       = Some (Ping locator (generateRandom w) (TIMEOUT_USECS * 1000)) /\
     pingsSent (eventsOf r) = [locator] /\
     (hintsSent (eventsOf r) = [] \/ hintsSent (eventsOf r) = [pingee])).
Proof.
  intros pingee r. subst pingee r.
  ping_round TIMEOUT_USECS w d;
    (split; [reflexivity|]); (split; [discriminate|]);
    (split; [intros H; try discriminate H; reflexivity|]);
    try (left; split; reflexivity);
    right; exists locator; cbn; repeat split; auto.
Qed.

Lemma pingRandomServer_traffic_witness :
  let r := pingRandomServer 50000 unreachable
             (FailureDetector.create (ServerId.make 2 1)) in
  requestsSent (eventsOf r) = [] /\
  outcomeOf r <> Thrown TransportException /\
  (negb (ServerId.isValid (ServerId.make 2 1))
   || ServerId.eqb (ServerId.make 2 1) (ServerId.make 2 1) = true ->
   r = (Returned tt, FailureDetector.create (ServerId.make 2 1), [])) /\
  (pingsSent (eventsOf r) = [] /\ hintsSent (eventsOf r) = [] \/
   exists locator,
     serverList_getLocator unreachable (ServerId.make 2 1) = Some locator /\
     head (eventsOf r) = Some (Ping locator 99 (50000 * 1000)) /\
     pingsSent (eventsOf r) = [locator] /\
     (hintsSent (eventsOf r) = [] \/
      hintsSent (eventsOf r) = [ServerId.make 2 1])).
Proof.
  exact (pingRandomServer_traffic 50000 unreachable
           (FailureDetector.create (ServerId.make 2 1))).
Defined.

(** X6.  A stale-list check never pings and never hints; it sends a
    server-list request, exactly one and for this server, if and only
    if the detector is suspecting, the local version has not passed the
    recorded one and the stale timeout has elapsed; it never starts a
    suspicion, never touches the recorded version, the timestamp or
    this server's id, and never lets a transport error escape. *)
Theorem checkForStaleServerList_effects
    toNanoseconds STALE_SERVER_LIST_USECS (w : World) (d : FailureDetector.t) :
  let r := checkForStaleServerList toNanoseconds STALE_SERVER_LIST_USECS w d in
  let due :=
    staleServerListSuspected d = true /\
    serverList_getVersion w <= staleServerListVersion d /\
    STALE_SERVER_LIST_USECS * 1000
      <= toNanoseconds (uint64 (Cycles_rdtsc w - staleServerListTimestamp d)) in
  pingsSent (eventsOf r) = [] /\
  hintsSent (eventsOf r) = [] /\
  (due -> requestsSent (eventsOf r) = [ourServerId d]) /\
  (~ due -> requestsSent (eventsOf r) = []) /\
  ourServerId (detectorOf r) = ourServerId d /\
  staleServerListVersion (detectorOf r) = staleServerListVersion d /\
  staleServerListTimestamp (detectorOf r) = staleServerListTimestamp d /\
  (staleServerListSuspected (detectorOf r) = true ->
   staleServerListSuspected d = true) /\
  outcomeOf r <> Thrown TransportException.
Proof.
  intros r due. subst r due.
  destruct (staleServerListSuspected d) eqn:Hs.
  2: { rewrite (checkForStaleServerList_idle _ _ w d Hs). cbn.
       repeat split; try discriminate; try congruence.
       - intros (H & _). discriminate H. }
  destruct (Z.lt_ge_cases (staleServerListVersion d) (serverList_getVersion w))
    as [Hv|Hv].
  { rewrite (checkForStaleServerList_advanced _ _ w d Hs Hv). cbn.
    repeat split; try discriminate; try congruence.
    intros (_ & H & _). lia. }
  destruct (Z.lt_ge_cases
    (toNanoseconds (uint64 (Cycles_rdtsc w - staleServerListTimestamp d)))
    (STALE_SERVER_LIST_USECS * 1000)) as [Ht|Ht].
  { rewrite (checkForStaleServerList_waiting _ _ w d Hs Hv Ht). cbn.
    repeat split; try discriminate; try congruence.
    intros (_ & _ & H). lia. }
  rewrite (checkForStaleServerList_request _ _ w d Hs Hv Ht).
  destruct (coordinatorClient_requestServerList w (ourServerId d))
    as [[]|[]|]; cbn; repeat split; try discriminate; try congruence;
    intros H; exfalso; apply H; repeat split; assumption.
Qed.

Lemma checkForStaleServerList_effects_witness :
  let r := checkForStaleServerList nanosecondTicks 500000 unreachable suspecting in
  let due :=
    staleServerListSuspected suspecting = true /\
    serverList_getVersion unreachable <= staleServerListVersion suspecting /\
    500000 * 1000
      <= nanosecondTicks
           (uint64 (Cycles_rdtsc unreachable
                    - staleServerListTimestamp suspecting)) in
  pingsSent (eventsOf r) = [] /\
  hintsSent (eventsOf r) = [] /\
  (due -> requestsSent (eventsOf r) = [ourServerId suspecting]) /\
  (~ due -> requestsSent (eventsOf r) = []) /\
  ourServerId (detectorOf r) = ourServerId suspecting /\
  staleServerListVersion (detectorOf r) = staleServerListVersion suspecting /\
  staleServerListTimestamp (detectorOf r)
    = staleServerListTimestamp suspecting /\
  (staleServerListSuspected (detectorOf r) = true ->
   staleServerListSuspected suspecting = true) /\
  outcomeOf r <> Thrown TransportException.
Proof.
  exact (checkForStaleServerList_effects nanosecondTicks 500000
           unreachable suspecting).
Defined.

Lemma requestsSent_app es1 es2 :
  requestsSent (es1 ++ es2) = requestsSent es1 ++ requestsSent es2.
Proof. apply omap_app. Qed.

Lemma hintsSent_app es1 es2 :
  hintsSent (es1 ++ es2) = hintsSent es1 ++ hintsSent es2.
Proof. apply omap_app. Qed.

Lemma pingsSent_app es1 es2 :
  pingsSent (es1 ++ es2) = pingsSent es1 ++ pingsSent es2.
Proof. apply omap_app. Qed.

(** X7.  However many rounds the detector thread runs and whatever the
    outside answers, it sends at most one ping and at most one
    server-list request per round and never more down-hints than
    pings; a transport error never ends the thread; this server's id
    never changes; and the thread keeps looping only as long as no
    round finds the exit flag set. *)
Theorem detectorLoop_bounds
    toNanoseconds TIMEOUT_USECS STALE_SERVER_LIST_USECS
    (rounds : list Round) (d : FailureDetector.t) :
  let r := detectorLoop toNanoseconds TIMEOUT_USECS STALE_SERVER_LIST_USECS
             rounds d in
  (length (pingsSent (snd r)) <= length rounds)%nat /\
  (length (requestsSent (snd r)) <= length rounds)%nat /\
  (length (hintsSent (snd r)) <= length (pingsSent (snd r)))%nat /\
  fst (fst r) <> Threw TransportException /\
  ourServerId (snd (fst r)) = ourServerId d /\
  (fst (fst r) = Running ->
   Forall (fun round => threadShouldExit round = false) rounds).
Proof.
  revert d. induction rounds as [|round rounds IH]; intros d r; subst r;
    cbn [detectorLoop].
  { cbn. repeat split; try lia; try discriminate. constructor. }
  destruct (threadShouldExit round) eqn:Hexit.
  { cbn. repeat split; try lia; discriminate. }
  pose proof (checkForStaleServerList_counts toNanoseconds
                STALE_SERVER_LIST_USECS (staleWorld round) d)
    as (Hcp & Hch & Hcr & Hce & Hco).
  destruct (checkForStaleServerList toNanoseconds STALE_SERVER_LIST_USECS
              (staleWorld round) d) as [[oc d1] es1].
  unfold outcomeOf, detectorOf, eventsOf in *. cbn [fst snd] in *.
  destruct oc as [u|e|].
  2: { cbn [fst snd]. rewrite Hcp, Hch. cbn [length].
       repeat split; try lia; try congruence; try discriminate. }
  2: { cbn [fst snd]. rewrite Hcp, Hch. cbn [length].
       repeat split; try lia; try congruence; try discriminate. }
  pose proof (pingRandomServer_counts TIMEOUT_USECS (pingWorld round) d1)
    as (Hpr & Hph & Hpe & Hpo).
  destruct (pingRandomServer TIMEOUT_USECS (pingWorld round) d1)
    as [[op d2] es2].
  unfold outcomeOf, detectorOf, eventsOf in *. cbn [fst snd] in *.
  destruct op as [u'|e|].
  2: { cbn [fst snd].
       rewrite pingsSent_app, requestsSent_app, hintsSent_app,
         !length_app, Hcp, Hch, Hpr. cbn [length].
       repeat split; try lia; try congruence; try discriminate. }
  2: { cbn [fst snd].
       rewrite pingsSent_app, requestsSent_app, hintsSent_app,
         !length_app, Hcp, Hch, Hpr. cbn [length].
       repeat split; try lia; try congruence; try discriminate. }
  specialize (IH d2).
  destruct (detectorLoop toNanoseconds TIMEOUT_USECS STALE_SERVER_LIST_USECS
              rounds d2) as [[e3 d3] es3].
  cbn [fst snd] in *.
  destruct IH as (Ip & Ir & Ih & Ie & Io & Irun).
  rewrite !pingsSent_app, !requestsSent_app, !hintsSent_app, !length_app,
    Hcp, Hch, Hpr. cbn [length].
  repeat split; try lia; try congruence.
  intros Hrun. constructor; [exact Hexit|apply Irun; exact Hrun].
Qed.

Lemma detectorLoop_bounds_witness :
  let rounds :=
    [BuildRound false stillWaiting unreachable;
     BuildRound false unreachable unreachable;
     BuildRound true caughtUp caughtUp] in
  let r := detectorLoop nanosecondTicks 50000 500000 rounds suspecting in
  (length (pingsSent (snd r)) <= length rounds)%nat /\
  (length (requestsSent (snd r)) <= length rounds)%nat /\
  (length (hintsSent (snd r)) <= length (pingsSent (snd r)))%nat /\
  fst (fst r) <> Threw TransportException /\
  ourServerId (snd (fst r)) = ourServerId suspecting /\
  (fst (fst r) = Running ->
   Forall (fun round => threadShouldExit round = false) rounds).
Proof.
  exact (detectorLoop_bounds nanosecondTicks 50000 500000
           [BuildRound false stillWaiting unreachable;
            BuildRound false unreachable unreachable;
            BuildRound true caughtUp caughtUp] suspecting).
Defined.

End FailureDetectorMoreFacts.

(** ** ServerConfig: sizing the log and the hash table *)

Module ServerConfigSizingFacts.

Import ServerConfig ServerConfigSizing MoreFixtures.

Lemma uint64_range z : 0 <= uint64 z < 2 ^ 64.
Proof. unfold uint64. apply Z.mod_pos_bound. lia. Qed.

Lemma uint64_div100_range z : 0 <= uint64 z / 100 < 2 ^ 64.
Proof.
  pose proof (uint64_range z) as H. split.
  - apply Z.div_pos; lia.
  - apply Z.div_lt_upper_bound; lia.
Qed.

(** A quotient of at least one means the dividend covers the divisor. *)
Lemma div_ge_1 a b : 0 < b -> 0 <= a -> (a / b <? 1) = false -> b <= a.
Proof.
  intros Hb Ha H. apply Z.ltb_ge in H.
  destruct (Z.lt_ge_cases a b) as [Hlt|Hge]; [|exact Hge].
  rewrite Z.div_small in H by lia. lia.
Qed.

Section Sizing.

Variable SEGMENT_SIZE : Z.
Variable bytesPerCacheLine : Z.
Variable strtoull : string -> Z.
Variable getTotalSystemMemory : Z.

Abbreviation setSizes :=
  (setLogAndHashTableSize SEGMENT_SIZE bytesPerCacheLine strtoull
     getTotalSystemMemory).

(** Every successful run went through the same final steps. *)
Lemma setLogAndHashTableSize_inr config m h config' logs :
  setSizes config m h = inr (config', logs) ->
  exists masterBytes hashTableBytes,
    0 <= masterBytes < 2 ^ 64 /\
    0 <= hashTableBytes <= masterBytes /\
    (uint64 (masterBytes - hashTableBytes) / SEGMENT_SIZE <? 1) = false /\
    (hashTableBytes / bytesPerCacheLine <? 1) = false /\
    (forall str, percentPrefix m = Some str ->
       0 < uint64 (strtoull str) <= 90 /\
       uint64 getTotalSystemMemory <> 0 /\
       masterBytes =
         uint64 (uint64 getTotalSystemMemory * uint64 (strtoull str)) / 100) /\
    (percentPrefix m = None ->
       masterBytes = uint64 (uint64 (strtoull m) * (1024 * 1024))) /\
    (forall str, percentPrefix h = Some str ->
       0 < uint64 (strtoull str) <= 50 /\
       hashTableBytes = uint64 (masterBytes * uint64 (strtoull str)) / 100) /\
    (percentPrefix h = None ->
       hashTableBytes = uint64 (uint64 (strtoull h) * (1024 * 1024))) /\
    config' =
      {| coordinatorLocator := coordinatorLocator config;
         localLocator := localLocator config;
         services := services config;
         detectFailures := detectFailures config;
         pinMemory := pinMemory config;
         master :=
           {| logBytes := uint64 (masterBytes - hashTableBytes);
              hashTableBytes := hashTableBytes;
              disableLogCleaner := disableLogCleaner (master config);
              numReplicas := numReplicas (master config) |};
         backup := backup config |} /\
    logs =
      [MasterToAllocate masterBytes hashTableBytes;
       MasterWillHave (uint64 (masterBytes - hashTableBytes) / SEGMENT_SIZE)
         (hashTableBytes / bytesPerCacheLine)].
Proof.
  unfold setLogAndHashTableSize.
  set (mr := match percentPrefix m with Some _ => _ | None => _ end).
  destruct mr as [e|masterBytes] eqn:Hmr; [discriminate|].
  set (hr := match percentPrefix h with Some _ => _ | None => _ end).
  destruct hr as [e|hashTableBytes] eqn:Hhr; [discriminate|].
  destruct (Z.gtb_spec hashTableBytes masterBytes) as [|Hle]; [discriminate|].
  destruct (uint64 (masterBytes - hashTableBytes) / SEGMENT_SIZE <? 1) eqn:Hseg;
    [discriminate|].
  destruct (hashTableBytes / bytesPerCacheLine <? 1) eqn:Hline; [discriminate|].
  intros Hres. inversion Hres; subst config' logs; clear Hres.
  exists masterBytes, hashTableBytes.
  assert (Hm : 0 <= masterBytes < 2 ^ 64 /\
     (forall str, percentPrefix m = Some str ->
        0 < uint64 (strtoull str) <= 90 /\
        uint64 getTotalSystemMemory <> 0 /\
        masterBytes =
          uint64 (uint64 getTotalSystemMemory * uint64 (strtoull str)) / 100) /\
     (percentPrefix m = None ->
        masterBytes = uint64 (uint64 (strtoull m) * (1024 * 1024)))).
  { revert Hmr. subst mr. destruct (percentPrefix m) as [str|].
    - pose proof (uint64_range (strtoull str)) as Hp.
      destruct (Z.leb_spec (uint64 (strtoull str)) 0) as [|Hlo];
        [discriminate|].
      destruct (Z.gtb_spec (uint64 (strtoull str)) 90) as [|Hhi];
        [discriminate|].
      cbn [orb].
      destruct (Z.eqb_spec (uint64 getTotalSystemMemory) 0) as [|Hmem];
        [discriminate|].
      intros Hmr. inversion Hmr; subst masterBytes.
      split; [apply uint64_div100_range|].
      split; [|intros Hn; discriminate Hn].
      intros str' Hs. inversion Hs; subst str'.
      repeat split; try lia; try assumption.
    - intros Hmr. inversion Hmr; subst masterBytes.
      split; [apply uint64_range|].
      split; [intros str Hn; discriminate Hn|reflexivity]. }
  destruct Hm as (Hmrange & Hmp & Hmn).
  assert (Hh : 0 <= hashTableBytes /\
     (forall str, percentPrefix h = Some str ->
        0 < uint64 (strtoull str) <= 50 /\
        hashTableBytes = uint64 (masterBytes * uint64 (strtoull str)) / 100) /\
     (percentPrefix h = None ->
        hashTableBytes = uint64 (uint64 (strtoull h) * (1024 * 1024)))).
  { revert Hhr. subst hr. destruct (percentPrefix h) as [str|].
    - pose proof (uint64_range (strtoull str)) as Hp.
      destruct (Z.leb_spec (uint64 (strtoull str)) 0) as [|Hlo];
        [discriminate|].
      destruct (Z.gtb_spec (uint64 (strtoull str)) 50) as [|Hhi];
        [discriminate|].
      cbn [orb]. intros Hhr. inversion Hhr; subst hashTableBytes.
      split; [apply uint64_div100_range|].
      split; [|intros Hn; discriminate Hn].
      intros str' Hs. inversion Hs; subst str'. split; [lia|reflexivity].
    - intros Hhr. inversion Hhr; subst hashTableBytes.
      split; [apply uint64_range|].
      split; [intros str Hn; discriminate Hn|reflexivity]. }
  destruct Hh as (Hhrange & Hhp & Hhn).
  split; [exact Hmrange|]. split; [lia|].
  split; [exact Hseg|]. split; [exact Hline|].
  split; [exact Hmp|]. split; [exact Hmn|].
  split; [exact Hhp|]. split; [exact Hhn|].
  split; reflexivity.
Qed.

(** X8.  When [setLogAndHashTableSize] succeeds (segments and cache
    lines having a positive size), the log gets at least one segment
    and the hash table at least one cache line, the two sizes add up
    without overflow to the total the first notice reports, and nothing
    else in the configuration changes. *)
Theorem setLogAndHashTableSize_success
    (config config' : ServerConfig.t) (m h : string) (logs : list SizingLog) :
  0 < SEGMENT_SIZE -> 0 < bytesPerCacheLine ->
  setSizes config m h = inr (config', logs) ->
  SEGMENT_SIZE <= logBytes (master config') /\
  bytesPerCacheLine <= hashTableBytes (master config') /\
  logBytes (master config') + hashTableBytes (master config') < 2 ^ 64 /\
  head logs =
    Some (MasterToAllocate
            (logBytes (master config') + hashTableBytes (master config'))
            (hashTableBytes (master config'))) /\
  disableLogCleaner (master config') = disableLogCleaner (master config) /\
  numReplicas (master config') = numReplicas (master config) /\
  coordinatorLocator config' = coordinatorLocator config /\
  localLocator config' = localLocator config /\
  services config' = services config /\
  detectFailures config' = detectFailures config /\
  pinMemory config' = pinMemory config /\
  backup config' = backup config.
Proof.
  intros Hseg Hline Hres.
  destruct (setLogAndHashTableSize_inr _ _ _ _ _ Hres)
    as (mb & hb & Hmb & Hhb & Hs & Hl & _ & _ & _ & _ & -> & ->).
  cbn.
  assert (Hlog : uint64 (mb - hb) = mb - hb)
    by (apply ServerIdFacts.uint64_small; lia).
  rewrite Hlog in *.
  pose proof (div_ge_1 (mb - hb) SEGMENT_SIZE Hseg ltac:(lia) Hs).
  pose proof (div_ge_1 hb bytesPerCacheLine Hline ltac:(lia) Hl).
  repeat split; try lia.
  do 2 f_equal. lia.
Qed.

(** X9.  When the total memory is given as a percentage: a percentage
    of 0 or above 90 is refused, whatever the hash table argument; and
    on success, provided 90 times the system memory fits 64 bits, log
    and hash table together take at most 90% of the system memory. *)
Theorem setLogAndHashTableSize_master_percent
    (config : ServerConfig.t) (m h str : string) :
  percentPrefix m = Some str ->
  (uint64 (strtoull str) = 0 \/ 90 < uint64 (strtoull str) ->
   setSizes config m h = inl InvalidMasterTotalMemory) /\
  (forall config' logs,
     setSizes config m h = inr (config', logs) ->
     uint64 getTotalSystemMemory * 90 < 2 ^ 64 ->
     (logBytes (master config') + hashTableBytes (master config')) * 100
       <= uint64 getTotalSystemMemory * 90).
Proof.
  intros Hpct. split.
  - intros Hbad. unfold setLogAndHashTableSize. rewrite Hpct.
    pose proof (uint64_range (strtoull str)).
    destruct (Z.leb_spec (uint64 (strtoull str)) 0);
      destruct (Z.gtb_spec (uint64 (strtoull str)) 90);
      try reflexivity; lia.
  - intros config' logs Hres Hfits.
    destruct (setLogAndHashTableSize_inr _ _ _ _ _ Hres)
      as (mb & hb & Hmb & Hhb & _ & _ & Hmp & _ & _ & _ & -> & _).
    destruct (Hmp str Hpct) as (Hrange & Hmem & Hmbeq).
    cbn.
    assert (Hlog : uint64 (mb - hb) = mb - hb)
      by (apply ServerIdFacts.uint64_small; lia).
    rewrite Hlog.
    pose proof (uint64_range getTotalSystemMemory) as Ht.
    rewrite ServerIdFacts.uint64_small in Hmbeq by nia.
    pose proof (Z.mul_div_le
      (uint64 getTotalSystemMemory * uint64 (strtoull str)) 100 ltac:(lia)).
    nia.
Qed.

(** X10.  When the hash table size is given as a percentage, success
    means the percentage was between 1 and 50; and, provided 50 times
    the total fits 64 bits, the hash table never gets more than the
    log. *)
Theorem setLogAndHashTableSize_hash_percent
    (config config' : ServerConfig.t) (m h str : string)
    (logs : list SizingLog) :
  percentPrefix h = Some str ->
  setSizes config m h = inr (config', logs) ->
  0 < uint64 (strtoull str) <= 50 /\
  ((logBytes (master config') + hashTableBytes (master config')) * 50 < 2 ^ 64 ->
   hashTableBytes (master config') <= logBytes (master config')).
Proof.
  intros Hpct Hres.
  destruct (setLogAndHashTableSize_inr _ _ _ _ _ Hres)
    as (mb & hb & Hmb & Hhb & _ & _ & _ & _ & Hhp & _ & -> & _).
  destruct (Hhp str Hpct) as (Hrange & Hhbeq).
  split; [exact Hrange|]. cbn.
  assert (Hlog : uint64 (mb - hb) = mb - hb)
    by (apply ServerIdFacts.uint64_small; lia).
  rewrite Hlog. intros Hfits.
  replace (mb - hb + hb) with mb in Hfits by lia.
  rewrite ServerIdFacts.uint64_small in Hhbeq by nia.
  pose proof (Z.mul_div_le (mb * uint64 (strtoull str)) 100 ltac:(lia)).
  nia.
Qed.

End Sizing.

(** A 16 GiB machine, 8 MiB segments, 64-byte cache lines. *)
Lemma setLogAndHashTableSize_success_witness :
  match setLogAndHashTableSize (8 * 1024 * 1024) 64 digitsValue (2 ^ 34)
          (forExecution (8 * 1024 * 1024)) "1024" "10%" with
  | inr (config', logs) =>
      8 * 1024 * 1024 <= logBytes (master config') /\
      64 <= hashTableBytes (master config') /\
      logBytes (master config') + hashTableBytes (master config') < 2 ^ 64 /\
      head logs =
        Some (MasterToAllocate
                (logBytes (master config') + hashTableBytes (master config'))
                (hashTableBytes (master config'))) /\
      disableLogCleaner (master config') = false /\
      numReplicas (master config') = 0 /\
      coordinatorLocator config' = EmptyString /\
      localLocator config' = EmptyString /\
      services config' = services (forExecution (8 * 1024 * 1024)) /\
      detectFailures config' = true /\
      pinMemory config' = true /\
      backup config' = backup (forExecution (8 * 1024 * 1024))
  | inl _ => False
  end.
Proof.
  destruct (setLogAndHashTableSize (8 * 1024 * 1024) 64 digitsValue (2 ^ 34)
              (forExecution (8 * 1024 * 1024)) "1024" "10%")
    as [e|[config' logs]] eqn:E.
  - vm_compute in E. discriminate E.
  - apply (setLogAndHashTableSize_success (8 * 1024 * 1024) 64 digitsValue
             (2 ^ 34) (forExecution (8 * 1024 * 1024)) config'
             "1024" "10%" logs); [lia|lia|exact E].
Defined.

Lemma setLogAndHashTableSize_master_percent_witness :
  setLogAndHashTableSize (8 * 1024 * 1024) 64 digitsValue (2 ^ 34)
    forTesting "95%" "10%" = inl InvalidMasterTotalMemory /\
  match setLogAndHashTableSize (8 * 1024 * 1024) 64 digitsValue (2 ^ 34)
          forTesting "50%" "10%" with
  | inr (config', logs) =>
      (logBytes (master config') + hashTableBytes (master config')) * 100
        <= uint64 (2 ^ 34) * 90
  | inl _ => False
  end.
Proof.
  split.
  - destruct (setLogAndHashTableSize_master_percent (8 * 1024 * 1024) 64
                digitsValue (2 ^ 34) forTesting "95%" "10%" "95" eq_refl)
      as [Hbad _].
    apply Hbad. right. reflexivity.
  - destruct (setLogAndHashTableSize (8 * 1024 * 1024) 64 digitsValue (2 ^ 34)
                forTesting "50%" "10%") as [e|[config' logs]] eqn:E.
    + vm_compute in E. discriminate E.
    + destruct (setLogAndHashTableSize_master_percent (8 * 1024 * 1024) 64
                  digitsValue (2 ^ 34) forTesting "50%" "10%" "50" eq_refl)
        as [_ Hcap].
      apply (Hcap config' logs E). reflexivity.
Defined.

Lemma setLogAndHashTableSize_hash_percent_witness :
  match setLogAndHashTableSize (8 * 1024 * 1024) 64 digitsValue (2 ^ 34)
          forTesting "1024" "10%" with
  | inr (config', logs) =>
      0 < uint64 (digitsValue "10") <= 50 /\
      ((logBytes (master config') + hashTableBytes (master config')) * 50
         < 2 ^ 64 ->
       hashTableBytes (master config') <= logBytes (master config'))
  | inl _ => False
  end.
Proof.
  destruct (setLogAndHashTableSize (8 * 1024 * 1024) 64 digitsValue (2 ^ 34)
              forTesting "1024" "10%") as [e|[config' logs]] eqn:E.
  - vm_compute in E. discriminate E.
  - apply (setLogAndHashTableSize_hash_percent (8 * 1024 * 1024) 64
             digitsValue (2 ^ 34) forTesting config' "1024" "10%" "10" logs
             eq_refl E).
Defined.

End ServerConfigSizingFacts.

(** ** Server *)

Module ServerFacts.

Import ServiceMask Server.

(** Destructs what the start-up of a server branches on. *)
Ltac server_fields :=
  cbn [config serverId backupReadSpeed backupWriteSpeed coordinator master
       backup membership ping failureDetector fst snd] in *.

Ltac server_cases :=
  unfold startForTesting, run, createAndRegisterServices, enlist,
    registerMaster, registerBackup, registerMembership, registerPing,
    constructCoordinator, configured in *;
  server_fields;
  repeat match goal with
         | |- context [ServiceMask.has ?m (single ?svc)] =>
             destruct (ServiceMask.has m (single svc)) eqn:?; server_fields
         end.

(** X11.  [createAndRegisterServices] stops the process before building
    anything when the configuration names the coordinator service.
    Otherwise it registers exactly the configured services among
    master, backup, membership and ping, once each and in that order,
    all with the bind transport when one is supplied and all with the
    service manager when none is; and it leaves the configuration and
    the server id alone. *)
Theorem createAndRegisterServices_registers
    (bindTransport : bool) (w : World) (s : Server.t) :
  let r := createAndRegisterServices bindTransport w s in
  (configured s COORDINATOR_SERVICE = true ->
   r = (FailureDetector.Aborted, s, [DieCoordinatorService])) /\
  (configured s COORDINATOR_SERVICE = false ->
   fst (fst r) = FailureDetector.Returned tt /\
   registered (snd r) =
     pair (registryOf bindTransport) <$>
       filter (fun svc => configured s svc = true)
         [MASTER_SERVICE; BACKUP_SERVICE; MEMBERSHIP_SERVICE; PING_SERVICE] /\
   config (snd (fst r)) = config s /\
   serverId (snd (fst r)) = serverId s /\
   coordinator (snd (fst r)) = true).
Proof.
  intros r. subst r. destruct s as [cfg id rs ws co ma ba me pi fd].
  split; intros Hc.
  - unfold createAndRegisterServices. rewrite Hc. reflexivity.
  - rewrite !filter_cons, filter_nil.
    server_cases; try discriminate Hc;
      repeat (destruct (decide _) as [?|?]; try congruence);
      destruct (ServerConfig.mockSpeed (ServerConfig.backup cfg) =? 0);
      repeat split.
Qed.

Lemma createAndRegisterServices_registers_witness :
  let s := Server.Build ServerConfig.forTesting ServerId.default 0 0
             false false false false false None in
  let r := createAndRegisterServices true (BuildWorld (0, 0)
             (FailureDetector.Returned (ServerId.make 1 0)) 0) s in
  fst (fst r) = FailureDetector.Returned tt /\
  registered (snd r) =
    [(BindTransportRegistry, MASTER_SERVICE);
     (BindTransportRegistry, BACKUP_SERVICE);
     (BindTransportRegistry, MEMBERSHIP_SERVICE)] /\
  config (snd (fst r)) = ServerConfig.forTesting /\
  serverId (snd (fst r)) = ServerId.default /\
  coordinator (snd (fst r)) = true.
Proof.
  intros s r.
  destruct (createAndRegisterServices_registers true
              (BuildWorld (0, 0) (FailureDetector.Returned (ServerId.make 1 0)) 0)
              s) as [_ H].
  apply H. reflexivity.
Defined.

(** X12.  The speeds a server reports for its backup storage: when the
    backup service is not configured they are left as they were and
    nothing is benchmarked; when it is configured with a non-zero mock
    speed both are that mock speed and nothing is benchmarked; when it
    is configured with mock speed 0 the storage is benchmarked and the
    measured speeds are taken. *)
Theorem createAndRegisterServices_backup_speeds
    (bindTransport : bool) (w : World) (s : Server.t) :
  configured s COORDINATOR_SERVICE = false ->
  let r := createAndRegisterServices bindTransport w s in
  let s' := snd (fst r) in
  let mockSpeed := ServerConfig.mockSpeed (ServerConfig.backup (config s)) in
  (configured s BACKUP_SERVICE = false ->
   backupReadSpeed s' = backupReadSpeed s /\
   backupWriteSpeed s' = backupWriteSpeed s /\
   benchmarked (snd r) = false) /\
  (configured s BACKUP_SERVICE = true -> mockSpeed <> 0 ->
   backupReadSpeed s' = mockSpeed /\
   backupWriteSpeed s' = mockSpeed /\
   benchmarked (snd r) = false) /\
  (configured s BACKUP_SERVICE = true -> mockSpeed = 0 ->
   backupReadSpeed s' = uint32 (fst (backup_benchmark w)) /\
   backupWriteSpeed s' = uint32 (snd (backup_benchmark w)) /\
   benchmarked (snd r) = true).
Proof.
  intros Hc r s' mockSpeed. subst r s' mockSpeed.
  destruct s as [cfg id rs ws co ma ba me pi fd].
  server_cases; try discriminate Hc;
    destruct (Z.eqb_spec (ServerConfig.mockSpeed (ServerConfig.backup cfg)) 0);
    repeat split; intros; try discriminate; try contradiction; reflexivity.
Qed.

Lemma createAndRegisterServices_backup_speeds_witness :
  let s := Server.Build ServerConfig.forTesting ServerId.default 0 0
             false false false false false None in
  let r := createAndRegisterServices true
             (BuildWorld (250, 120)
                (FailureDetector.Returned (ServerId.make 1 0)) 0) s in
  backupReadSpeed (snd (fst r)) = 100 /\
  backupWriteSpeed (snd (fst r)) = 100 /\
  benchmarked (snd r) = false.
Proof.
  intros s r.
  destruct (createAndRegisterServices_backup_speeds true
              (BuildWorld (250, 120)
                 (FailureDetector.Returned (ServerId.make 1 0)) 0) s eq_refl)
    as (_ & Hmock & _).
  apply Hmock; [reflexivity|discriminate].
Defined.

(** X13.  When the coordinator answers the enlistment with an id,
    [startForTesting] stores that id as the server's, initialises with
    it the master and the backup that were built, and builds and starts
    the failure detector for that id exactly when failure detection is
    configured; the enlistment request carries the configured services
    and locator and the backup speeds settled during registration; and
    memory is never pinned. *)
Theorem startForTesting_enlists
    (w : World) (s : Server.t) (id : ServerId.t) :
  configured s COORDINATOR_SERVICE = false ->
  coordinator_enlistServer w = FailureDetector.Returned id ->
  let r := startForTesting w s in
  let s' := snd (fst r) in
  fst (fst r) = FailureDetector.Returned tt /\
  serverId s' = id /\
  failureDetector s' =
    (if ServerConfig.detectFailures (config s)
     then Some (FailureDetector.create id) else failureDetector s) /\
  In (EnlistServer (ServerConfig.services (config s))
        (ServerConfig.localLocator (config s))
        (backupReadSpeed s') (backupWriteSpeed s')) (snd r) /\
  (In (InitMaster id) (snd r) <->
   configured s MASTER_SERVICE = true \/ master s = true) /\
  (In (InitBackup id) (snd r) <->
   configured s BACKUP_SERVICE = true \/ backup s = true) /\
  (In (StartFailureDetector (ServerConfig.coordinatorLocator (config s)) id)
      (snd r) <->
   ServerConfig.detectFailures (config s) = true) /\
  ~ In PinAllMemory (snd r).
Proof.
  intros Hc Hid r s'. subst r s'.
  destruct s as [cfg sid rs ws co ma ba me pi fd].
  server_cases; try discriminate Hc; rewrite Hid;
    destruct (ServerConfig.mockSpeed (ServerConfig.backup cfg) =? 0);
    destruct (ServerConfig.detectFailures cfg);
    destruct ma; destruct ba;
    cbn; intuition (discriminate || congruence).
Qed.

Lemma startForTesting_enlists_witness :
  let s := Server.Build ServerConfig.forTesting ServerId.default 0 0
             false false false false false None in
  let w := BuildWorld (250, 120)
             (FailureDetector.Returned (ServerId.make 1 0)) 0 in
  let r := startForTesting w s in
  let s' := snd (fst r) in
  fst (fst r) = FailureDetector.Returned tt /\
  serverId s' = ServerId.make 1 0 /\
  failureDetector s' = None /\
  In (EnlistServer (ServerConfig.services ServerConfig.forTesting)
        EmptyString (backupReadSpeed s') (backupWriteSpeed s')) (snd r) /\
  (In (InitMaster (ServerId.make 1 0)) (snd r) <->
   configured s MASTER_SERVICE = true \/ master s = true) /\
  (In (InitBackup (ServerId.make 1 0)) (snd r) <->
   configured s BACKUP_SERVICE = true \/ backup s = true) /\
  (In (StartFailureDetector EmptyString (ServerId.make 1 0)) (snd r) <->
   ServerConfig.detectFailures ServerConfig.forTesting = true) /\
  ~ In PinAllMemory (snd r).
Proof.
  intros s w.
  exact (startForTesting_enlists w s (ServerId.make 1 0) eq_refl eq_refl).
Defined.

(** X14.  [run] builds and registers every service before it pins
    memory, and contacts the coordinator to enlist only after memory is
    pinned and the dispatch time is set. *)
Theorem run_pins_before_enlisting (w : World) (s : Server.t) :
  configured s COORDINATOR_SERVICE = false ->
  exists before after,
    snd (run w s) =
      before ++ [PinAllMemory; SetDispatchTime (Cycles_rdtsc w)] ++ after /\
    registered before = registered (snd (run w s)) /\
    ~ In PinAllMemory before /\
    ~ In PinAllMemory after /\
    (forall services locator readSpeed writeSpeed,
       ~ In (EnlistServer services locator readSpeed writeSpeed) before) /\
    exists readSpeed writeSpeed,
      head after =
        Some (EnlistServer (ServerConfig.services (config s))
                (ServerConfig.localLocator (config s)) readSpeed writeSpeed).
Proof.
  intros Hc.
  destruct s as [cfg sid rs ws co ma ba me pi fd].
  unfold run.
  destruct (createAndRegisterServices false w
              {| config := cfg; serverId := sid; backupReadSpeed := rs;
                 backupWriteSpeed := ws; coordinator := co; master := ma;
                 backup := ba; membership := me; ping := pi;
                 failureDetector := fd |}) as [[o s1] es1] eqn:Hreg.
  revert Hreg.
  server_cases; try discriminate Hc;
    intros Hreg; inversion Hreg; subst o s1 es1; clear Hreg;
    server_fields;
    destruct (ServerConfig.mockSpeed (ServerConfig.backup cfg) =? 0);
    destruct (coordinator_enlistServer w) as [id|e|];
    destruct (ServerConfig.detectFailures cfg);
    destruct ma; destruct ba;
    cbn [fst snd];
    (eexists; eexists; split; [reflexivity|]);
    cbn; intuition (discriminate || eauto).
Qed.

Lemma run_pins_before_enlisting_witness :
  let s := Server.Build (ServerConfig.forExecution (8 * 1024 * 1024))
             ServerId.default 0 0 false false false false false None in
  let w := BuildWorld (250, 120)
             (FailureDetector.Returned (ServerId.make 1 0)) 77 in
  exists before after,
    snd (run w s) = before ++ [PinAllMemory; SetDispatchTime 77] ++ after /\
    registered before = registered (snd (run w s)) /\
    ~ In PinAllMemory before /\
    ~ In PinAllMemory after /\
    (forall services locator readSpeed writeSpeed,
       ~ In (EnlistServer services locator readSpeed writeSpeed) before) /\
    exists readSpeed writeSpeed,
      head after =
        Some (EnlistServer
                (ServerConfig.services
                   (ServerConfig.forExecution (8 * 1024 * 1024)))
                EmptyString readSpeed writeSpeed).
Proof.
  intros s w. exact (run_pins_before_enlisting w s eq_refl).
Defined.

End ServerFacts.

(** ** ClusterPerf *)

Module ClusterPerfFacts.

Import ClusterPerf.

Lemma int32_small z : - 2 ^ 31 <= z < 2 ^ 31 -> int32 z = z.
Proof. intros H. unfold int32. rewrite Z.mod_small by lia. lia. Qed.

Lemma objectId_value client id :
  0 <= client < 2 ^ 23 -> objectId client id = client * 256 + Id_value id.
Proof.
  intros Hc. unfold objectId.
  rewrite Z.shiftl_mul_pow2 by lia. change (2 ^ 8) with 256.
  assert (0 <= Id_value id <= 3) by (destruct id; cbn; lia).
  rewrite (int32_small (client * 256)) by lia.
  rewrite int32_small by lia.
  apply ServerIdFacts.uint64_small. lia.
Qed.

(** X15.  For client indexes below [2^23], the object id of a control
    object is [256 * client + id]: the control objects of different
    clients, and the different control objects of one client, never
    share an object id. *)
Theorem objectId_injective (c1 c2 : Z) (i1 i2 : Id) :
  0 <= c1 < 2 ^ 23 -> 0 <= c2 < 2 ^ 23 ->
  objectId c1 i1 = 256 * c1 + Id_value i1 /\
  (objectId c1 i1 = objectId c2 i2 <-> c1 = c2 /\ i1 = i2).
Proof.
  intros H1 H2. rewrite !objectId_value by assumption.
  split; [lia|].
  split; [|intros [-> ->]; reflexivity].
  intros Heq.
  assert (0 <= Id_value i1 <= 3) by (destruct i1; cbn; lia).
  assert (0 <= Id_value i2 <= 3) by (destruct i2; cbn; lia).
  assert (c1 = c2) by lia. subst c2.
  split; [reflexivity|].
  assert (Hv : Id_value i1 = Id_value i2) by lia.
  destruct i1, i2; cbn in Hv; congruence.
Qed.

Lemma objectId_injective_witness :
  objectId 3 COMMAND = 256 * 3 + Id_value COMMAND /\
  (objectId 3 COMMAND = objectId 4 STATE <-> 3 = 4 /\ COMMAND = STATE).
Proof. apply (objectId_injective 3 4 COMMAND STATE); lia. Defined.

(** Every chunk is full: the padding digits alone outrun the array. *)
Lemma chunk_length position tableId objectId :
  length (chunk position tableId objectId) = 50%nat.
Proof.
  unfold chunk, chunkText. rewrite length_take, !length_app.
  change (Z.to_nat (CHUNK_SIZE - 1)) with 50%nat.
  change (length (String.list_ascii_of_string "| ")) with 2%nat.
  change (length (String.list_ascii_of_string ": tableId 0x")) with 12%nat.
  change (length (String.list_ascii_of_string ", objectId 0x")) with 13%nat.
  change (length (String.list_ascii_of_string " ")) with 1%nat.
  change (length (String.list_ascii_of_string
                    "0123456789012345678901234567890123456789")) with 40%nat.
  lia.
Qed.

(** The loop appends the next [bytesLeft] bytes of the pattern. *)
Lemma fillLoop_pattern tableId objectId fuel :
  forall bytesLeft position buffer,
    0 <= bytesLeft < 2 ^ 32 ->
    (Z.to_nat bytesLeft <= fuel)%nat ->
    fillLoop fuel tableId objectId bytesLeft position buffer =
      Some (buffer ++
            take (Z.to_nat bytesLeft) (pattern fuel tableId objectId position)).
Proof.
  induction fuel as [|fuel IH]; intros bytesLeft position buffer Hb Hfuel.
  - assert (bytesLeft = 0) by lia. subst bytesLeft. cbn.
    rewrite app_nil_r. reflexivity.
  - cbn [fillLoop pattern].
    destruct (Z.gtb_spec bytesLeft 0) as [Hpos|Hzero].
    2: { assert (bytesLeft = 0) by lia. subst bytesLeft.
         rewrite take_0, app_nil_r. reflexivity. }
    change (CHUNK_SIZE - 1) with 50.
    pose proof (chunk_length position tableId objectId) as Hlen.
    destruct (Z.gtb_spec 50 bytesLeft) as [Hshort|Hfull].
    + rewrite Z.sub_diag. change (uint32 0) with 0.
      rewrite IH by (cbn; lia). change (Z.to_nat 0) with 0%nat.
      rewrite take_0, app_nil_r.
      rewrite take_app_le by lia. reflexivity.
    + rewrite (ServerIdFacts.uint32_small (bytesLeft - 50)) by lia.
      rewrite IH by lia.
      rewrite (take_ge (chunk position tableId objectId)) by (rewrite Hlen; lia).
      rewrite take_app_ge by lia. rewrite Hlen.
      rewrite <- app_assoc.
      replace (Z.to_nat bytesLeft - 50)%nat with (Z.to_nat (bytesLeft - 50))
        by lia.
      reflexivity.
Qed.

Lemma pattern_length n tableId objectId position :
  length (pattern n tableId objectId position) = (50 * n)%nat.
Proof.
  revert position. induction n as [|n IH]; intros position; cbn [pattern].
  - reflexivity.
  - rewrite length_app, chunk_length, IH. lia.
Qed.

(** The pattern does not depend on how many chunks are laid out. *)
Lemma pattern_take n m k tableId objectId position :
  (k <= 50 * n)%nat -> (n <= m)%nat ->
  take k (pattern n tableId objectId position) =
  take k (pattern m tableId objectId position).
Proof.
  revert m k position.
  induction n as [|n IH]; intros m k position Hk Hnm.
  - assert (k = 0%nat) by lia. subst k. rewrite !take_0. reflexivity.
  - destruct m as [|m]; [lia|]. cbn [pattern].
    rewrite !(take_app (chunk position tableId objectId)), chunk_length.
    f_equal. apply IH; lia.
Qed.

(** Filling always ends, with the first [size] bytes of the pattern. *)
Lemma fillBuffer_pattern size tableId objectId :
  0 <= size < 2 ^ 32 ->
  fillBuffer size tableId objectId =
    Some (take (Z.to_nat size)
            (pattern (Z.to_nat size) tableId objectId 0)).
Proof.
  intros Hs. unfold fillBuffer.
  rewrite fillLoop_pattern by lia. reflexivity.
Qed.

(** X16.  [fillBuffer] always terminates and puts exactly [size] bytes
    in the buffer; and the data for one table and object does not
    depend on the size asked for: a shorter fill is the beginning of a
    longer one. *)
Theorem fillBuffer_prefix (size size' tableId objectId : Z) :
  0 <= size <= size' -> size' < 2 ^ 32 ->
  exists buffer buffer',
    fillBuffer size tableId objectId = Some buffer /\
    fillBuffer size' tableId objectId = Some buffer' /\
    length buffer = Z.to_nat size /\
    length buffer' = Z.to_nat size' /\
    buffer = take (Z.to_nat size) buffer'.
Proof.
  intros Hs Hs'.
  rewrite !fillBuffer_pattern by lia.
  eexists. eexists. split; [reflexivity|]. split; [reflexivity|].
  rewrite !length_take, !pattern_length.
  split; [lia|]. split; [lia|].
  rewrite take_take.
  replace (Z.to_nat size `min` Z.to_nat size')%nat with (Z.to_nat size) by lia.
  apply pattern_take; lia.
Qed.

Lemma fillBuffer_prefix_witness :
  exists buffer buffer',
    fillBuffer 70 1 2 = Some buffer /\
    fillBuffer 120 1 2 = Some buffer' /\
    length buffer = Z.to_nat 70 /\
    length buffer' = Z.to_nat 120 /\
    buffer = take (Z.to_nat 70) buffer'.
Proof. apply (fillBuffer_prefix 70 120 1 2); lia. Defined.

(** Without a mismatch, buffers of one length are equal. *)
Lemma firstMismatch_None buffer :
  forall i comparison,
    length buffer = length comparison ->
    (firstMismatch i buffer comparison = None <-> buffer = comparison).
Proof.
  induction buffer as [|c1 buffer IH]; intros i [|c2 comparison] Hlen;
    cbn in Hlen; try discriminate Hlen; cbn [firstMismatch].
  - split; reflexivity.
  - destruct (Ascii.eqb_spec c1 c2) as [->|Hne].
    + rewrite IH by lia. split; [intros ->; reflexivity|].
      intros H. inversion H. reflexivity.
    + split; [discriminate|]. intros H. inversion H. contradiction.
Qed.

(** The mismatch reported is a real one, at the index reported. *)
Lemma firstMismatch_Some buffer :
  forall i0 comparison i c1 c2,
    0 <= i0 -> i0 + Z.of_nat (length buffer) < 2 ^ 32 ->
    firstMismatch i0 buffer comparison = Some (i, c1, c2) ->
    i0 <= i < i0 + Z.of_nat (length buffer) /\
    buffer !! Z.to_nat (i - i0) = Some c1 /\
    comparison !! Z.to_nat (i - i0) = Some c2 /\
    c1 <> c2.
Proof.
  induction buffer as [|b buffer IH]; intros i0 [|c comparison] i c1 c2 H0 Hlen;
    cbn [firstMismatch]; try discriminate.
  destruct (Ascii.eqb_spec b c) as [->|Hne].
  - cbn [length] in Hlen. intros H.
    rewrite ServerIdFacts.uint32_small in H by lia.
    apply IH in H; [|lia|lia].
    destruct H as (Hi & Hb & Hc & Hd).
    replace (Z.to_nat (i - i0)) with (S (Z.to_nat (i - (i0 + 1)))) by lia.
    cbn [length]. repeat split; try assumption; lia.
  - intros H. inversion H; subst i c1 c2. cbn [length].
    rewrite Z.sub_diag. cbn. repeat split; try lia. exact Hne.
Qed.

(** Before the mismatch reported, the buffers agree. *)
Lemma firstMismatch_prefix buffer :
  forall i0 comparison i c1 c2,
    0 <= i0 -> i0 + Z.of_nat (length buffer) < 2 ^ 32 ->
    firstMismatch i0 buffer comparison = Some (i, c1, c2) ->
    take (Z.to_nat (i - i0)) buffer = take (Z.to_nat (i - i0)) comparison.
Proof.
  induction buffer as [|b buffer IH]; intros i0 [|c comparison] i c1 c2 H0 Hl;
    cbn [firstMismatch]; try discriminate.
  destruct (Ascii.eqb_spec b c) as [->|Hne].
  - cbn [length] in Hl. intros H.
    rewrite ServerIdFacts.uint32_small in H by lia.
    pose proof (firstMismatch_Some buffer (i0 + 1) comparison i c1 c2
                  ltac:(lia) ltac:(lia) H) as (Hi & _).
    apply IH in H; [|lia|lia].
    replace (Z.to_nat (i - i0)) with (S (Z.to_nat (i - (i0 + 1)))) by lia.
    cbn [take]. f_equal. exact H.
  - intros H. inversion H; subst. rewrite Z.sub_diag. reflexivity.
Qed.

(** X17.  [checkBuffer] always returns, accepts a buffer exactly when
    it holds what [fillBuffer] produces for the expected length, table
    and object, logs nothing when it accepts and one line when it
    rejects. *)
Theorem checkBuffer_accepts_iff
    (buffer : Buffer) (expectedLength tableId objectId : Z) :
  0 <= expectedLength < 2 ^ 32 ->
  Z.of_nat (length buffer) < 2 ^ 32 ->
  exists verdict logs,
    checkBuffer buffer expectedLength tableId objectId = Some (verdict, logs) /\
    (verdict = true <->
     fillBuffer expectedLength tableId objectId = Some buffer) /\
    (verdict = true -> logs = []) /\
    (verdict = false -> length logs = 1%nat).
Proof.
  intros Hn Hlen. unfold checkBuffer.
  rewrite (ServerIdFacts.uint32_small (Z.of_nat (length buffer))) by lia.
  destruct (fillBuffer_prefix expectedLength expectedLength tableId objectId
              ltac:(lia) ltac:(lia))
    as (comparison & _ & Hfill & _ & Hclen & _ & _).
  rewrite Hfill.
  destruct (Z.eqb_spec (Z.of_nat (length buffer)) expectedLength) as [Heq|Hne];
    cbn [negb].
  - destruct (firstMismatch 0 buffer comparison) as [[[i c1] c2]|] eqn:Hmis.
    + exists false, [mismatchLog buffer comparison expectedLength i c1 c2].
      split; [reflexivity|]. split; [|split; [discriminate|reflexivity]].
      split; [discriminate|]. intros H. inversion H; subst comparison.
      assert (Hn' : firstMismatch 0 buffer buffer = None)
        by (apply firstMismatch_None; reflexivity).
      congruence.
    + exists true, []. split; [reflexivity|].
      split; [|split; [reflexivity|discriminate]].
      split; [|reflexivity]. intros _.
      apply firstMismatch_None in Hmis; [congruence|lia].
  - exists false, [WrongLength expectedLength (Z.of_nat (length buffer))].
    split; [reflexivity|]. split; [|split; [discriminate|reflexivity]].
    split; [discriminate|]. intros H. inversion H; subst comparison. lia.
Qed.

Lemma checkBuffer_accepts_iff_witness :
  exists verdict logs,
    checkBuffer (String.list_ascii_of_string "| 0: t") 6 1 2
      = Some (verdict, logs) /\
    (verdict = true <->
     fillBuffer 6 1 2 = Some (String.list_ascii_of_string "| 0: t")) /\
    (verdict = true -> logs = []) /\
    (verdict = false -> length logs = 1%nat).
Proof.
  apply (checkBuffer_accepts_iff (String.list_ascii_of_string "| 0: t") 6 1 2).
  - lia.
  - vm_compute. reflexivity.
Defined.

(** Going through [unsigned] and back to [int] keeps small values. *)
Lemma int32_uint32 z : - 2 ^ 31 <= z < 2 ^ 31 -> int32 (uint32 z) = z.
Proof.
  intros Hz. unfold int32, uint32.
  destruct (Z.lt_ge_cases z 0) as [Hneg|Hpos].
  - replace (z mod 2 ^ 32) with (z + 2 ^ 32).
    + replace (z + 2 ^ 32 + 2 ^ 31) with (z + 2 ^ 31 + 1 * 2 ^ 32) by lia.
      rewrite Z.mod_add by lia. rewrite Z.mod_small by lia. lia.
    + symmetry. replace z with (z + 2 ^ 32 + (-1) * 2 ^ 32) at 1 by lia.
      rewrite Z.mod_add by lia. apply Z.mod_small. lia.
  - rewrite (Z.mod_small z) by lia. rewrite Z.mod_small by lia. lia.
Qed.

(** X18.  For buffers of at most [2^31] bytes, when [checkBuffer]
    reports corrupted data the excerpt it logs is at most 20 bytes
    long, lies within both buffers (so neither range is [NULL]) and
    contains the first differing byte; the leading dots are shown
    exactly when the excerpt does not start the buffer, the trailing
    dots exactly when it stops short of the end. *)
Theorem checkBuffer_excerpt
    (buffer : Buffer) (expectedLength tableId objectId : Z)
    (expected got : Ascii.ascii) (prefixDots suffixDots : bool)
    (start length : Z) (comparisonRange bufferRange : option (list Ascii.ascii)) :
  0 <= expectedLength <= 2 ^ 31 ->
  Z.of_nat (List.length buffer) < 2 ^ 32 ->
  checkBuffer buffer expectedLength tableId objectId =
    Some (false,
          [WrongData expected got prefixDots start length suffixDots
             comparisonRange bufferRange]) ->
  exists i comparison,
    fillBuffer expectedLength tableId objectId = Some comparison /\
    buffer !! Z.to_nat i = Some got /\
    comparison !! Z.to_nat i = Some expected /\
    got <> expected /\
    take (Z.to_nat i) buffer = take (Z.to_nat i) comparison /\
    0 <= start <= i /\ i < start + length /\
    start + length <= expectedLength /\ length <= 20 /\
    (prefixDots = true <-> 0 < start) /\
    (suffixDots = true <-> start + length < expectedLength) /\
    bufferRange =
      Some (take (Z.to_nat length) (drop (Z.to_nat start) buffer)) /\
    comparisonRange =
      Some (take (Z.to_nat length) (drop (Z.to_nat start) comparison)).
Proof.
  intros Hn Hlen. unfold checkBuffer.
  rewrite (ServerIdFacts.uint32_small (Z.of_nat (List.length buffer))) by lia.
  destruct (fillBuffer_prefix expectedLength expectedLength tableId objectId
              ltac:(lia) ltac:(lia))
    as (comparison & _ & Hfill & _ & Hclen & _ & _).
  rewrite Hfill.
  destruct (Z.eqb_spec (Z.of_nat (List.length buffer)) expectedLength)
    as [Heq|Hne]; cbn [negb]; [|discriminate].
  destruct (firstMismatch 0 buffer comparison) as [[[i c1] c2]|] eqn:Hmis;
    [|discriminate].
  pose proof (firstMismatch_prefix buffer 0 comparison i c1 c2
                ltac:(lia) ltac:(lia) Hmis) as Hprefix.
  rewrite Z.sub_0_r in Hprefix.
  apply firstMismatch_Some in Hmis; [|lia|lia].
  destruct Hmis as (Hi & Hb & Hc & Hd).
  rewrite Z.sub_0_r in Hb, Hc.
  unfold mismatchLog.
  rewrite (int32_uint32 (i - 10)) by lia.
  intros H. inversion H; subst; clear H.
  exists i, comparison.
  split; [reflexivity|]. split; [exact Hb|]. split; [exact Hc|].
  split; [exact Hd|]. split; [exact Hprefix|].
  destruct (Z.leb_spec (i - 10) 0) as [Hnear|Hfar]; cbn [negb].
  - rewrite (ServerIdFacts.uint32_small (0 + 20)) by lia.
    destruct (Z.geb_spec (0 + 20) (Z.of_nat (List.length buffer)))
      as [Hshort|Hlong]; cbn [negb].
    + rewrite ServerIdFacts.uint32_small by lia.
      unfold getRange.
      destruct (Z.leb_spec (0 + (Z.of_nat (List.length buffer) - 0))
                  (Z.of_nat (List.length buffer))); [|lia].
      destruct (Z.leb_spec (0 + (Z.of_nat (List.length buffer) - 0))
                  (Z.of_nat (List.length comparison))); [|lia].
      repeat split; try lia; try discriminate.
    + unfold getRange.
      destruct (Z.leb_spec (0 + 20) (Z.of_nat (List.length buffer))); [|lia].
      destruct (Z.leb_spec (0 + 20) (Z.of_nat (List.length comparison)));
        [|lia].
      repeat split; try lia; try discriminate.
  - rewrite (ServerIdFacts.uint32_small (i - 10 + 20)) by lia.
    destruct (Z.geb_spec (i - 10 + 20) (Z.of_nat (List.length buffer)))
      as [Hshort|Hlong]; cbn [negb].
    + rewrite ServerIdFacts.uint32_small by lia.
      unfold getRange.
      destruct (Z.leb_spec (i - 10 + (Z.of_nat (List.length buffer) - (i - 10)))
                  (Z.of_nat (List.length buffer))); [|lia].
      destruct (Z.leb_spec (i - 10 + (Z.of_nat (List.length buffer) - (i - 10)))
                  (Z.of_nat (List.length comparison))); [|lia].
      repeat split; try lia; try discriminate.
    + unfold getRange.
      destruct (Z.leb_spec (i - 10 + 20) (Z.of_nat (List.length buffer)));
        [|lia].
      destruct (Z.leb_spec (i - 10 + 20) (Z.of_nat (List.length comparison)));
        [|lia].
      repeat split; try lia; try discriminate.
Qed.

Lemma checkBuffer_excerpt_witness :
  let comparison := default [] (fillBuffer 70 1 2) in
  let buffer := <[65%nat := Ascii.ascii_of_nat 33]> comparison in
  exists i comparison',
    fillBuffer 70 1 2 = Some comparison' /\
    buffer !! Z.to_nat i = Some (Ascii.ascii_of_nat 33) /\
    comparison' !! Z.to_nat i = Some (Ascii.ascii_of_nat 120) /\
    Ascii.ascii_of_nat 33 <> Ascii.ascii_of_nat 120 /\
    take (Z.to_nat i) buffer = take (Z.to_nat i) comparison' /\
    0 <= 55 <= i /\ i < 55 + 15 /\ 55 + 15 <= 70 /\
    15 <= 20 /\ (true = true <-> 0 < 55) /\
    (false = true <-> 55 + 15 < 70) /\
    Some (take 15 (drop 55 buffer)) =
      Some (take (Z.to_nat 15) (drop (Z.to_nat 55) buffer)) /\
    Some (take 15 (drop 55 comparison)) =
      Some (take (Z.to_nat 15) (drop (Z.to_nat 55) comparison')).
Proof.
  intros comparison buffer.
  apply (checkBuffer_excerpt buffer 70 1 2
           (Ascii.ascii_of_nat 120) (Ascii.ascii_of_nat 33) true false 55 15
           (Some (take 15 (drop 55 comparison)))
           (Some (take 15 (drop 55 buffer)))).
  - lia.
  - vm_compute. reflexivity.
  - vm_compute. reflexivity.
Defined.

(** The C string of an array that has a NUL after NUL-free bytes. *)
Lemma cString_app (l rest : list Ascii.ascii) :
  Forall (fun c => c <> Ascii.zero) l ->
  cString (l ++ Ascii.zero :: rest) = l.
Proof.
  induction 1 as [|c l Hc _ IH]; cbn [cString app].
  - rewrite Ascii.eqb_refl. reflexivity.
  - destruct (Ascii.eqb_spec c Ascii.zero); [contradiction|].
    rewrite IH. reflexivity.
Qed.

(** X19.  Into a non-empty array of [size] characters, [readObject]
    stores the object's bytes, cut to [size - 1] if the object is
    longer, followed by a NUL: the array keeps its length, and when the
    object holds no NUL byte the C string returned is the object
    itself, or its first [size - 1] bytes. *)
Theorem readObject_truncates
    (object : Buffer) (value : list Ascii.ascii) (size : Z) :
  0 < size < 2 ^ 32 ->
  length value = Z.to_nat size ->
  Z.of_nat (length object) < 2 ^ 32 ->
  let result := readObject object value size in
  let kept := Z.to_nat (Z.min (Z.of_nat (length object)) (size - 1)) in
  length result = Z.to_nat size /\
  result !! kept = Some Ascii.zero /\
  take kept result = take kept object /\
  (Forall (fun c => c <> Ascii.zero) object ->
   cString result = take kept object).
Proof.
  intros Hsize Hvalue Hobject result kept. subst result kept.
  unfold readObject.
  rewrite (ServerIdFacts.uint32_small (Z.of_nat (length object))) by lia.
  set (value1 := take (Z.to_nat size) object ++
                 drop (length (take (Z.to_nat size) object)) value).
  assert (Hlen1 : length value1 = Z.to_nat size).
  { subst value1. rewrite length_app, length_drop, length_take. lia. }
  assert (Htake1 : forall k, (k <= Z.to_nat size)%nat ->
            (k <= length object)%nat -> take k value1 = take k object).
  { intros k Hk Hko. subst value1.
    rewrite take_app_le by (rewrite length_take; lia).
    rewrite take_take. f_equal. lia. }
  destruct (Z.leb_spec size (Z.of_nat (length object))) as [Hlong|Hshort].
  - rewrite (ServerIdFacts.uint32_small (size - 1)) by lia.
    rewrite Z.min_r by lia.
    assert (Hin : (Z.to_nat (size - 1) < length value1)%nat) by lia.
    split; [rewrite length_insert; exact Hlen1|].
    split; [apply list_lookup_insert_eq; exact Hin|].
    split.
    + rewrite take_insert_ge by lia. apply Htake1; lia.
    + intros Hnul.
      rewrite insert_take_drop by exact Hin.
      rewrite Htake1 by lia.
      apply cString_app. apply Forall_take. exact Hnul.
  - rewrite Z.min_l by lia. rewrite Nat2Z.id.
    assert (Hin : (length object < length value1)%nat) by lia.
    split; [rewrite length_insert; exact Hlen1|].
    split; [apply list_lookup_insert_eq; exact Hin|].
    split.
    + rewrite take_insert_ge by lia. apply Htake1; lia.
    + intros Hnul.
      rewrite insert_take_drop by exact Hin.
      rewrite Htake1 by lia.
      apply cString_app. apply Forall_take. exact Hnul.
Qed.

Lemma readObject_truncates_witness :
  let object := String.list_ascii_of_string "running" in
  let result := readObject object (replicate 5 (Ascii.ascii_of_nat 122)) 5 in
  length result = 5%nat /\
  result !! 4%nat = Some Ascii.zero /\
  take 4 result = take 4 object /\
  (Forall (fun c => c <> Ascii.zero) object ->
   cString result = take 4 object).
Proof.
  intros object result.
  apply (readObject_truncates object (replicate 5 (Ascii.ascii_of_nat 122)) 5).
  - lia.
  - reflexivity.
  - vm_compute. reflexivity.
Defined.

Lemma cString_app_zero (l rest : list Ascii.ascii) :
  cString (l ++ Ascii.zero :: rest) = cString l.
Proof.
  induction l as [|c l IH]; cbn [cString app].
  - rewrite Ascii.eqb_refl. reflexivity.
  - destruct (Ascii.eqb c Ascii.zero); [reflexivity|]. rewrite IH. reflexivity.
Qed.

Lemma readObject_layout (object : Buffer) (value : list Ascii.ascii) (size : Z) :
  0 < size < 2 ^ 32 ->
  length value = Z.to_nat size ->
  Z.of_nat (length object) < 2 ^ 32 ->
  length (readObject object value size) = Z.to_nat size /\
  cString (readObject object value size) = command size object.
Proof.
  intros Hsize Hvalue Hobject. unfold readObject, command.
  rewrite (ServerIdFacts.uint32_small (Z.of_nat (length object))) by lia.
  set (value1 := take (Z.to_nat size) object ++
                 drop (length (take (Z.to_nat size) object)) value).
  assert (Hlen1 : length value1 = Z.to_nat size).
  { subst value1. rewrite length_app, length_drop, length_take. lia. }
  assert (Htake1 : forall k, (k <= Z.to_nat size)%nat ->
            (k <= length object)%nat -> take k value1 = take k object).
  { intros k Hk Hko. subst value1.
    rewrite take_app_le by (rewrite length_take; lia).
    rewrite take_take. f_equal. lia. }
  destruct (Z.leb_spec size (Z.of_nat (length object))) as [Hlong|Hshort].
  - rewrite (ServerIdFacts.uint32_small (size - 1)) by lia.
    rewrite Z.min_r by lia.
    split; [rewrite length_insert; exact Hlen1|].
    rewrite insert_take_drop by lia.
    rewrite Htake1 by lia. apply cString_app_zero.
  - rewrite Z.min_l by lia. rewrite Nat2Z.id.
    split; [rewrite length_insert; exact Hlen1|].
    rewrite insert_take_drop by lia.
    rewrite Htake1 by lia. apply cString_app_zero.
Qed.

Lemma sleeps_app (es1 es2 : list ControlEvent) :
  sleeps (es1 ++ es2) = (sleeps es1 + sleeps es2)%nat.
Proof. unfold sleeps. rewrite List.filter_app, length_app. reflexivity. Qed.

(** X22.  [getCommand], given an array of [size > 0] characters, ends at
    the first turn in which a command other than [idle] is read and its
    removal goes through: it returns that command, cut to [size - 1]
    characters, has slept once for every earlier turn, and the removal
    is the last thing it did.  Missing tables or objects, [idle], and a
    removal that fails only make it sleep and poll again; while no turn
    delivers it neither returns nor stops polling. *)
Theorem getCommand_first_delivery
    (controlTable clientIndex : Z) (polls : list Poll)
    (buffer : list Ascii.ascii) (size : Z) :
  0 < size < 2 ^ 32 ->
  length buffer = Z.to_nat size ->
  Forall readable polls ->
  let id := objectId clientIndex COMMAND in
  let result := getCommand controlTable clientIndex polls buffer size in
  match list_find (fun poll => delivers size poll = true) polls with
  | Some (turn, poll) =>
      exists object value,
        pollRead poll = ObjectRead object /\
        result.1 = Some value /\
        length value = Z.to_nat size /\
        cString value = command size object /\
        cString value <> idle /\
        sleeps result.2 = turn /\
        last result.2 = Some (RemoveObject controlTable id)
  | None =>
      result.1 = None /\ sleeps result.2 = length polls
  end.
Proof.
  intros Hsize Hbuffer Hpolls id result. subst result.
  revert buffer Hbuffer.
  induction Hpolls as [|poll polls Hpoll _ IH]; intros buffer Hbuffer.
  - cbn. split; reflexivity.
  - assert (Hagain : forall buffer' events,
              length buffer' = Z.to_nat size ->
              sleeps events = 0%nat ->
              delivers size poll = false ->
              let result :=
                (let '(result, rest) :=
                   getCommand controlTable clientIndex polls buffer' size in
                 (result, events ++ Usleep 10000 :: rest)) in
              match list_find (fun poll => delivers size poll = true)
                      (poll :: polls) with
              | Some (turn, poll) =>
                  exists object value,
                    pollRead poll = ObjectRead object /\
                    result.1 = Some value /\
                    length value = Z.to_nat size /\
                    cString value = command size object /\
                    cString value <> idle /\
                    sleeps result.2 = turn /\
                    last result.2 = Some (RemoveObject controlTable id)
              | None =>
                  result.1 = None /\ sleeps result.2 = length (poll :: polls)
              end).
    { intros buffer' events Hbuffer' Hevents Hnot result.
      subst result. cbn [list_find].
      rewrite decide_False by (rewrite Hnot; discriminate).
      specialize (IH buffer' Hbuffer').
      destruct (getCommand controlTable clientIndex polls buffer' size)
        as [result rest].
      destruct (list_find (fun poll => delivers size poll = true) polls)
        as [[turn found]|]; cbn [fmap option_fmap option_map prod_map fst snd id] in *.
      - destruct IH as (object & value & Hread & Hres & Hlen & Hcmd & Hidle & Hsl & Hlast).
        exists object, value. repeat (split; [assumption|]).
        split.
        + rewrite sleeps_app, Hevents. cbn. unfold sleeps in Hsl. rewrite Hsl. reflexivity.
        + rewrite last_app. rewrite last_cons. rewrite Hlast. reflexivity.
      - destruct IH as [Hres Hsl]. split; [assumption|].
        rewrite sleeps_app, Hevents. cbn. unfold sleeps in Hsl. rewrite Hsl. reflexivity. }
    cbn [getCommand]. unfold readable in Hpoll.
    destruct (pollRead poll) as [object| |] eqn:Hread.
    + destruct (readObject_layout object buffer size Hsize Hbuffer Hpoll)
        as [Hlen Hcmd].
      destruct (bool_decide (cString (readObject object buffer size) <> idle))
        eqn:Hidle.
      * destruct (pollRemove poll) eqn:Hremove.
        -- cbn [list_find].
           rewrite decide_True.
           2:{ unfold delivers. rewrite Hread, Hremove, <- Hcmd. exact Hidle. }
           exists object, (readObject object buffer size).
           apply bool_decide_eq_true in Hidle.
           repeat (split; [first [assumption|reflexivity]|]). reflexivity.
        -- apply (Hagain _ [_; _] Hlen); [reflexivity|].
           unfold delivers. rewrite Hread, Hremove. reflexivity.
        -- apply (Hagain _ [_; _] Hlen); [reflexivity|].
           unfold delivers. rewrite Hread, Hremove. reflexivity.
      * apply (Hagain _ [_] Hlen); [reflexivity|].
        unfold delivers. rewrite Hread, <- Hcmd.
        destruct (pollRemove poll); [exact Hidle|reflexivity|reflexivity].
    + apply (Hagain _ [_] Hbuffer); [reflexivity|].
      unfold delivers. rewrite Hread. reflexivity.
    + apply (Hagain _ [_] Hbuffer); [reflexivity|].
      unfold delivers. rewrite Hread. reflexivity.
Qed.

Lemma getCommand_first_delivery_witness :
  let text s := String.list_ascii_of_string s in
  let polls :=
    [ {| pollRead := ObjectDoesntExistException; pollRemove := ObjectRemoved |};
      {| pollRead := ObjectRead (text "idle"); pollRemove := ObjectRemoved |};
      {| pollRead := ObjectRead (text "run"); pollRemove := RemoveTableDoesntExist |};
      {| pollRead := ObjectRead (text "measure"); pollRemove := ObjectRemoved |} ] in
  let result := getCommand 7 3 polls (replicate 5 Ascii.zero) 5 in
  exists object value,
    pollRead {| pollRead := ObjectRead (text "measure"); pollRemove := ObjectRemoved |}
      = ObjectRead object /\
    result.1 = Some value /\
    length value = Z.to_nat 5 /\
    cString value = command 5 object /\
    cString value <> idle /\
    sleeps result.2 = 3%nat /\
    last result.2 = Some (RemoveObject 7 (objectId 3 COMMAND)).
Proof.
  intros text polls result.
  apply (getCommand_first_delivery 7 3 polls (replicate 5 Ascii.zero) 5).
  - lia.
  - reflexivity.
  - repeat constructor.
Defined.

End ClusterPerfFacts.

(** ** Transport test script *)

Module TransportSmackFacts.

Import TransportSmack.

Lemma replace_flat_map old new (f : Ascii.ascii -> list Ascii.ascii) s :
  replace old new (flat_map f s) = flat_map (fun c => replace old new (f c)) s.
Proof.
  unfold replace. induction s as [|c s IH]; cbn [flat_map]; [reflexivity|].
  rewrite flat_map_app, IH. reflexivity.
Qed.

Lemma replace_backslash s :
  replace backslash [backslash; backslash] s = flat_map (escapedOnce []) s.
Proof.
  unfold replace. apply flat_map_ext. intros c. unfold escapedOnce.
  destruct (Ascii.eqb_spec c backslash) as [->|Hc].
  - rewrite decide_True by (left; reflexivity). reflexivity.
  - rewrite decide_False; [reflexivity|].
    intros [?|Hin]; [contradiction|]. inversion Hin.
Qed.

Lemma replace_escapedOnce done char c :
  char <> backslash -> char ∉ done ->
  replace char [backslash; char] (escapedOnce done c) =
  escapedOnce (done ++ [char]) c.
Proof.
  intros Hbs Hnew. unfold escapedOnce, replace.
  destruct (decide (c = backslash \/ c ∈ done)) as [Hc|Hc].
  - rewrite decide_True by (rewrite elem_of_app; tauto).
    cbn [flat_map app].
    destruct (Ascii.eqb_spec backslash char) as [E|_]; [congruence|].
    destruct (Ascii.eqb_spec c char) as [E|_]; [|reflexivity].
    subst c. destruct Hc as [?|?]; contradiction.
  - cbn [flat_map app].
    destruct (Ascii.eqb_spec c char) as [->|Hne].
    + rewrite decide_True by (right; rewrite elem_of_app, list_elem_of_singleton; tauto).
      reflexivity.
    + rewrite decide_False; [reflexivity|].
      rewrite elem_of_app, list_elem_of_singleton. tauto.
Qed.

(** The loop of [addbs], started after the characters [done]. *)
Lemma addbs_loop chars : forall done s,
  NoDup (done ++ chars) -> backslash ∉ chars ->
  fold_left (fun s char => replace char [backslash; char] s) chars
    (flat_map (escapedOnce done) s) =
  flat_map (escapedOnce (done ++ chars)) s.
Proof.
  induction chars as [|char chars IH]; intros done s Hdup Hbs; cbn [fold_left].
  - rewrite app_nil_r. reflexivity.
  - apply NoDup_app in Hdup as Hparts. destruct Hparts as (_ & Hdisj & _).
    rewrite replace_flat_map.
    rewrite (flat_map_ext _ (escapedOnce (done ++ [char]))).
    + rewrite IH.
      * rewrite <- app_assoc. reflexivity.
      * rewrite <- app_assoc. exact Hdup.
      * intros Hin. apply Hbs. right. exact Hin.
    + intros c. apply replace_escapedOnce.
      * intros ->. apply Hbs. left.
      * intros Hin. apply (Hdisj char Hin). left.
Qed.

Lemma escapedOnce_injective chars s1 : forall s2,
  flat_map (escapedOnce chars) s1 = flat_map (escapedOnce chars) s2 -> s1 = s2.
Proof.
  induction s1 as [|c1 s1 IH]; intros [|c2 s2]; cbn [flat_map].
  - reflexivity.
  - unfold escapedOnce at 1. destruct (decide _); discriminate.
  - unfold escapedOnce at 1. destruct (decide _); discriminate.
  - unfold escapedOnce at 1 3.
    destruct (decide (c1 = backslash \/ c1 ∈ chars)) as [H1|H1];
    destruct (decide (c2 = backslash \/ c2 ∈ chars)) as [H2|H2];
    cbn [app]; intros E.
    + injection E as -> E. f_equal. apply IH. exact E.
    + injection E as <- _. exfalso. apply H2. left. reflexivity.
    + injection E as -> _. exfalso. apply H1. left. reflexivity.
    + injection E as -> E. f_equal. apply IH. exact E.
Qed.

Lemma addbs_closed_form s chars :
  NoDup chars -> backslash ∉ chars ->
  addbs s chars = flat_map (escapedOnce chars) s.
Proof.
  intros Hdup Hbs. unfold addbs. rewrite replace_backslash.
  apply (addbs_loop chars [] s); assumption.
Qed.

(** When a character is listed twice, its second [replace] sees the
    backslash-escaped character of the first, and what comes out reads
    as an escaped backslash followed by the bare character. *)
Example addbs_repeated_character :
  addbs [semicolon] [semicolon; semicolon] = [backslash; backslash; semicolon].
Proof. reflexivity. Qed.

(** X20.  When [chars] lists each character once and holds no
    backslash, the replacements [addbs] makes one after the other amount
    to one pass over the string: every backslash and every listed
    character gets exactly one backslash in front of it, nothing else
    changes, and the original string can be told from the result. *)
Theorem addbs_escapes_once (s chars : list Ascii.ascii) :
  NoDup chars -> backslash ∉ chars ->
  addbs s chars = flat_map (escapedOnce chars) s /\
  length (addbs s chars) =
    (length s + length (filter (fun c => c = backslash \/ c ∈ chars) s))%nat /\
  forall s', addbs s' chars = addbs s chars -> s' = s.
Proof.
  intros Hdup Hbs. split; [apply addbs_closed_form; assumption|]. split.
  - rewrite addbs_closed_form by assumption.
    induction s as [|c s IH]; [reflexivity|].
    cbn [flat_map]. rewrite length_app, IH, filter_cons. unfold escapedOnce.
    destruct (decide (c = backslash \/ c ∈ chars)); cbn [length]; lia.
  - intros s'. rewrite !addbs_closed_form by assumption.
    apply escapedOnce_injective.
Qed.

Lemma addbs_escapes_once_witness :
  let s := String.list_ascii_of_string "host=a;port=1" in
  let chars := [quote; comma; semicolon] in
  addbs s chars = flat_map (escapedOnce chars) s /\
  length (addbs s chars) =
    (length s + length (filter (fun c => c = backslash \/ c ∈ chars) s))%nat /\
  forall s', addbs s' chars = addbs s chars -> s' = s.
Proof.
  intros s chars. apply (addbs_escapes_once s chars).
  - apply (bool_decide_unpack _). vm_compute. exact I.
  - apply (bool_decide_unpack _). vm_compute. exact I.
Defined.

(** X21.  [escape] and [escapeq] lose nothing: two service locators get
    the same escaped text only when they are the same.  The text
    [escapeq] returns is the value between two double quotes, with one
    backslash in front of each of its own quotes and backslashes. *)
Theorem escape_escapeq_faithful (sl1 sl2 : list Ascii.ascii) :
  (escape sl1 = escape sl2 <-> sl1 = sl2) /\
  (escapeq sl1 = escapeq sl2 <-> sl1 = sl2) /\
  escapeq sl1 = quote :: flat_map (escapedOnce [quote]) sl1 ++ [quote].
Proof.
  assert (Hq : NoDup [quote] /\ backslash ∉ [quote]).
  { split; apply (bool_decide_unpack _); vm_compute; exact I. }
  assert (He : NoDup [quote; comma; semicolon] /\
               backslash ∉ [quote; comma; semicolon]).
  { split; apply (bool_decide_unpack _); vm_compute; exact I. }
  destruct Hq as [Hq1 Hq2]. destruct He as [He1 He2].
  split; [|split].
  - split; [|intros ->; reflexivity].
    unfold escape. rewrite !addbs_closed_form by assumption.
    apply escapedOnce_injective.
  - split; [|intros ->; reflexivity].
    unfold escapeq. cbn [app]. intros E. injection E as E.
    apply app_inv_tail in E.
    rewrite !addbs_closed_form in E by assumption.
    apply escapedOnce_injective in E. exact E.
  - unfold escapeq. rewrite addbs_closed_form by assumption. reflexivity.
Qed.

End TransportSmackFacts.
